(** * AliExpress category scraper: model and verified properties

    The development embeds the Python package [scraper] (modules [utils],
    [config], [brightdata] and [aliexpress_scraper]) and settles the
    properties stated about it.

    Conventions of the embedding.
    - A Python [str] is a Rocq [string]; its characters are the code points
      below 256.  On that range the regular-expression class [\d] is exactly
      ['0'..'9'] and [str.isspace] is the set given by [is_space].
    - [Optional[str]] is [option string]; values stored in dictionaries are
      [pyval]; dictionaries are [gmap string pyval]; the set [seen_urls] is a
      [gset pyval].
    - Python [float] quantities of the retry policy are exact rationals
      ([Q]); the draw of [random.uniform] is an explicit argument.
    - Calls that leave the process (the HTTP request, the browser) are
      oracles collected in an environment record; every retry loop is a
      structural recursion over the remaining iterations of its [range].
    - The asyncio workers of a run interleave only where they await.  No
      await separates the filter, the marking and the write of a worker, so
      a run is given by its schedule: the order in which the workers go
      through that step.
    - [urllib.parse] is an interface with the laws [with_page_param] relies
      on; URLs that [urlparse] rejects are outside the model. *)

From Stdlib Require Import ZArith QArith Qround Qabs Qminmax Qpower String Ascii List Lia Bool.
From Stdlib Require Import DecimalString DecimalPos DecimalZ Lqa.
From stdpp Require Import base gmap sets list strings.

Open Scope string_scope.
Open Scope Z_scope.

(** ** Python values *)

Module Py.

(** The values a product dictionary can hold. *)
Inductive pyval :=
| PyNone
| PyStr (s : string)
| PyInt (n : Z).

#[global] Instance pyval_eq_dec : EqDecision pyval.
Proof. solve_decision. Defined.

Definition pyval_enc (v : pyval) : unit + (string + Z) :=
  match v with
  | PyNone => inl tt
  | PyStr s => inr (inl s)
  | PyInt n => inr (inr n)
  end.

Definition pyval_dec (x : unit + (string + Z)) : pyval :=
  match x with
  | inl _ => PyNone
  | inr (inl s) => PyStr s
  | inr (inr n) => PyInt n
  end.

#[global] Instance pyval_countable : Countable pyval.
Proof.
  apply (inj_countable' pyval_enc pyval_dec).
  intros []; reflexivity.
Defined.

(** Truth value of an object, as tested by [if x] and [not x]. *)
Definition truthy (v : pyval) : bool :=
  match v with
  | PyNone => false
  | PyStr s => negb (String.eqb s "")
  | PyInt n => negb (n =? 0)
  end.

Definition of_opt (o : option string) : pyval :=
  match o with
  | Some s => PyStr s
  | None => PyNone
  end.

(** [d.get(k)]: the stored value, [None] when the key is missing. *)
Definition get (d : gmap string pyval) (k : string) : pyval :=
  default PyNone (d !! k).

End Py.
Export Py.

(** ** Character classes and string primitives *)

Module Text.

Definition code (c : ascii) : N := N_of_ascii c.

(** [\d] *)
Definition is_digit (c : ascii) : bool :=
  ((48 <=? code c) && (code c <=? 57))%N.

(** [str.isspace] on one character. *)
Definition is_space (c : ascii) : bool :=
  (((9 <=? code c) && (code c <=? 13))
   || ((28 <=? code c) && (code c <=? 32))
   || (code c =? 133) || (code c =? 160))%N.

Definition is_comma (c : ascii) : bool := Ascii.eqb c ",".
Definition is_dot (c : ascii) : bool := Ascii.eqb c ".".

Fixpoint sfilter (p : ascii -> bool) (s : string) : string :=
  match s with
  | EmptyString => EmptyString
  | String c r => if p c then String c (sfilter p r) else sfilter p r
  end.

Fixpoint smap (f : ascii -> ascii) (s : string) : string :=
  match s with
  | EmptyString => EmptyString
  | String c r => String (f c) (smap f r)
  end.

Fixpoint sforall (p : ascii -> bool) (s : string) : bool :=
  match s with
  | EmptyString => true
  | String c r => p c && sforall p r
  end.

Fixpoint sexists (p : ascii -> bool) (s : string) : bool :=
  match s with
  | EmptyString => false
  | String c r => p c || sexists p r
  end.

(** [s.replace(a, b)] for single characters. *)
Definition replace_char (a b : ascii) (s : string) : string :=
  smap (fun c => if Ascii.eqb c a then b else c) s.

(** [s.replace(a, '')] for a single character. *)
Definition remove_char (a : ascii) (s : string) : string :=
  sfilter (fun c => negb (Ascii.eqb c a)) s.

Fixpoint lstrip (s : string) : string :=
  match s with
  | EmptyString => EmptyString
  | String c r => if is_space c then lstrip r else s
  end.

Fixpoint rstrip (s : string) : string :=
  match s with
  | EmptyString => EmptyString
  | String c r =>
      match rstrip r with
      | EmptyString => if is_space c then EmptyString else String c EmptyString
      | r' => String c r'
      end
  end.

(** [s.strip()] *)
Definition strip (s : string) : string := rstrip (lstrip s).

(** [str.lower] on one character. *)
Definition lower_char (c : ascii) : ascii :=
  if (((65 <=? code c) && (code c <=? 90))
      || ((192 <=? code c) && (code c <=? 222) && negb (code c =? 215)))%N
  then ascii_of_N (code c + 32)
  else c.

Definition lower (s : string) : string := smap lower_char s.

(** [needle in s] *)
Fixpoint contains (needle s : string) : bool :=
  String.prefix needle s
  || match s with
     | EmptyString => false
     | String _ r => contains needle r
     end.

(** Longest prefix whose characters satisfy [p], and what follows it. *)
Fixpoint span (p : ascii -> bool) (s : string) : string * string :=
  match s with
  | EmptyString => (EmptyString, EmptyString)
  | String c r =>
      if p c then let '(a, b) := span p r in (String c a, b)
      else (EmptyString, s)
  end.

Fixpoint drop_until (p : ascii -> bool) (s : string) : string :=
  match s with
  | EmptyString => EmptyString
  | String c r => if p c then s else drop_until p r
  end.

End Text.
Export Text.

(** ** scraper/utils.py *)

Module Utils.

(** [re.sub(r'[^\d.,]', '', text)] *)
Definition sub_non_price (text : string) : string :=
  sfilter (fun c => is_digit c || is_dot c || is_comma c) text.

Definition clean_price (text : option string) : option string :=
  match text with
  | None => None
  | Some t =>
      if String.eqb t "" then None
      else
        let cleaned := sub_non_price t in
        let cleaned := replace_char "," "." cleaned in
        if String.eqb cleaned "" then None else Some (strip cleaned)
  end.

(** [re.search] with the pattern "one or more digits, then any number of
    commas and digits", returning [match.group(1)].  The leftmost match
    starts at the first digit and both repetitions are greedy. *)
Fixpoint search_sold (s : string) : option string :=
  match s with
  | EmptyString => None
  | String c r =>
      if is_digit c then
        let '(digits, rest) := span is_digit s in
        let '(tail, _) := span (fun c => is_comma c || is_digit c) rest in
        Some (digits ++ tail)
      else search_sold r
  end.

Definition extract_sold_count (text : option string) : string :=
  match search_sold (default "" text) with
  | None => "0"
  | Some g => remove_char "," g
  end.

End Utils.
Export Utils.

(** ** scraper/config.py *)

Module Config.

(** The settings read by the modelled code.  Every field comes from the
    process environment, so no relation between them is assumed. *)
Record Config := {
  MAX_RETRIES : Z;
  RETRY_BASE_DELAY : Q;
  RETRY_BACKOFF_FACTOR : Q;
  RETRY_JITTER : Q;
  RETRY_MAX_DELAY : Q
}.

(** The values used when the environment sets nothing. *)
Definition defaults : Config := {|
  MAX_RETRIES := 3;
  RETRY_BASE_DELAY := 2;
  RETRY_BACKOFF_FACTOR := 2;
  RETRY_JITTER := 1;
  RETRY_MAX_DELAY := 30
|}.

(** Nearest integer, ties to the even neighbour. *)
Definition round_half_even (x : Q) : Z :=
  let f := Qfloor x in
  match (x - inject_Z f ?= 1 # 2)%Q with
  | Lt => f
  | Gt => f + 1
  | Eq => if Z.even f then f else f + 1
  end.

(** [round(x, 2)] *)
Definition round2 (x : Q) : Q :=
  (inject_Z (round_half_even (x * 100)) / 100)%Q.

(** [Config.calculate_retry_delay(attempt)]; [jitter] is the value that
    [uniform(0, cls.RETRY_JITTER)] returns in this call. *)
Definition calculate_retry_delay (cls : Config) (attempt : Z) (jitter : Q) : Q :=
  let delay := (RETRY_BASE_DELAY cls * RETRY_BACKOFF_FACTOR cls ^ (attempt - 1))%Q in
  let delay := Qmin (delay + jitter)%Q (RETRY_MAX_DELAY cls) in
  round2 delay.

End Config.
Export Config.

(** ** urllib.parse, as far as [with_page_param] observes it *)

Module Urllib.

(** The three library functions whose results depend on the character
    repertoire and on the interpreter version are an interface:
    - [quote_plus s] is [urllib.parse.quote_plus(s)];
    - [unquote_plus s] is [unquote(s.replace('+', ' '))], the decoding that
      [parse_qsl] applies to every name and value;
    - [unparse_head h] is what [urlunparse] writes for the scheme, netloc,
      path and params that [urlparse] found in [h], the part of a URL in
      front of its query and fragment. *)
Record UrlLib := {
  quote_plus : string -> string;
  unquote_plus : string -> string;
  unparse_head : string -> string
}.

Definition is_query_delim (c : ascii) : bool :=
  Ascii.eqb c "&" || Ascii.eqb c "=" || Ascii.eqb c "#".

Definition is_head_delim (c : ascii) : bool :=
  Ascii.eqb c "?" || Ascii.eqb c "#".

(** What the library guarantees about these functions. *)
Class UrlLibLaws (L : UrlLib) : Prop := {
  unquote_quote : forall t, unquote_plus L (quote_plus L t) = t;
  unquote_empty : unquote_plus L "" = "";
  unquote_nonempty : forall s, unquote_plus L s = "" -> s = "";
  quote_no_delim : forall t, sexists is_query_delim (quote_plus L t) = false;
  head_no_delim : forall h,
    sexists is_head_delim h = false ->
    sexists is_head_delim (unparse_head L h) = false
}.

(** [s.partition(sep)]: the text before the first [sep] and, when [sep]
    occurs, the text after it. *)
Fixpoint partition (sep : ascii) (s : string) : string * option string :=
  match s with
  | EmptyString => (EmptyString, None)
  | String c r =>
      if Ascii.eqb c sep then (EmptyString, Some r)
      else let '(a, b) := partition sep r in (String c a, b)
  end.

(** [s.split(sep)] *)
Fixpoint split (sep : ascii) (s : string) : list string :=
  match s with
  | EmptyString => [EmptyString]
  | String c r =>
      if Ascii.eqb c sep then EmptyString :: split sep r
      else match split sep r with
           | [] => [String c EmptyString]
           | x :: xs => String c x :: xs
           end
  end.

(** [sep.join(parts)] *)
Fixpoint join (sep : string) (parts : list string) : string :=
  match parts with
  | [] => EmptyString
  | [x] => x
  | x :: xs => x ++ sep ++ join sep xs
  end.

(** The result of [urlparse], with the four leading components kept
    together in [head]: [with_page_param] replaces [query] only. *)
Record ParseResult := {
  head : string;
  query : string;
  fragment : string
}.

Definition urlparse (url : string) : ParseResult :=
  let '(url, frag) := partition "#" url in
  let '(url, qry) := partition "?" url in
  {| head := url; query := default "" qry; fragment := default "" frag |}.

Definition urlunparse (L : UrlLib) (p : ParseResult) : string :=
  let url := unparse_head L (head p) in
  let url := if String.eqb (query p) "" then url else url ++ "?" ++ query p in
  if String.eqb (fragment p) "" then url else url ++ "#" ++ fragment p.

(** [parse_qsl(qs)] with its defaults: fields are separated by ['&'], a
    field without ['='] or with nothing after it is skipped. *)
Definition parse_field (L : UrlLib) (name_value : string) : option (string * string) :=
  if String.eqb name_value "" then None
  else match partition "=" name_value with
       | (name, Some value) =>
           if String.eqb value "" then None
           else Some (unquote_plus L name, unquote_plus L value)
       | (_, None) => None
       end.

Definition parse_qsl (L : UrlLib) (qs : string) : list (string * string) :=
  omap (parse_field L) (split "&" qs).

(** A [dict] whose values are lists, in insertion order. *)
Definition qdict := list (string * list string).

(** [if name in d: d[name].append(value) else: d[name] = [value]] *)
Fixpoint dict_append (d : qdict) (name value : string) : qdict :=
  match d with
  | [] => [(name, [value])]
  | (k, vs) :: d' =>
      if String.eqb k name then (k, (vs ++ [value])%list) :: d'
      else (k, vs) :: dict_append d' name value
  end.

(** [d[name] = vs] *)
Fixpoint dict_set (d : qdict) (name : string) (vs : list string) : qdict :=
  match d with
  | [] => [(name, vs)]
  | (k, old) :: d' =>
      if String.eqb k name then (k, vs) :: d'
      else (k, old) :: dict_set d' name vs
  end.

Fixpoint dict_get {V} (d : list (string * V)) (name : string) : option V :=
  match d with
  | [] => None
  | (k, v) :: d' => if String.eqb k name then Some v else dict_get d' name
  end.

Definition parse_qs (L : UrlLib) (qs : string) : qdict :=
  fold_left (fun d nv => dict_append d (fst nv) (snd nv)) (parse_qsl L qs) [].

(** [urlencode(d)] for a dictionary of strings. *)
Definition encode_field (L : UrlLib) (kv : string * string) : string :=
  quote_plus L (fst kv) ++ "=" ++ quote_plus L (snd kv).

Definition urlencode (L : UrlLib) (d : list (string * string)) : string :=
  join "&" (map (encode_field L) d).

(** The shape [parse_qs] maintains: no key twice, no empty list, no empty
    value. *)
Definition well_formed (d : qdict) : Prop :=
  NoDup (map fst d)
  /\ Forall (fun kv => snd kv <> [] /\ Forall (fun v => v <> "") (snd kv)) d.

(** [str(n)] for an [int]. *)
Definition str (n : Z) : string := NilZero.string_of_int (Z.to_int n).

(** *** An instance of the interface

    Percent-encoding of single characters, which is what the library does
    on ASCII text; the head is written back unchanged. *)

Definition is_alnum (c : ascii) : bool :=
  (is_digit c
   || ((65 <=? code c) && (code c <=? 90))
   || ((97 <=? code c) && (code c <=? 122)))%N.

Definition is_unreserved (c : ascii) : bool :=
  is_alnum c || Ascii.eqb c "_" || Ascii.eqb c "." || Ascii.eqb c "-" || Ascii.eqb c "~".

Definition hex_digit (n : N) : ascii :=
  if (n <? 10)%N then ascii_of_N (48 + n) else ascii_of_N (55 + n).

Definition hex_val (c : ascii) : option N :=
  if is_digit c then Some (code c - 48)%N
  else if ((65 <=? code c) && (code c <=? 70))%N then Some (code c - 55)%N
  else if ((97 <=? code c) && (code c <=? 102))%N then Some (code c - 87)%N
  else None.

Definition quote_char (c : ascii) : string :=
  if is_unreserved c then String c EmptyString
  else if Ascii.eqb c " " then "+"
  else String "%" (String (hex_digit (code c / 16)) (String (hex_digit (code c mod 16)) EmptyString)).

Fixpoint plain_quote_plus (s : string) : string :=
  match s with
  | EmptyString => EmptyString
  | String c r => quote_char c ++ plain_quote_plus r
  end.

Fixpoint plain_unquote (s : string) : string :=
  match s with
  | EmptyString => EmptyString
  | String c r0 =>
      if Ascii.eqb c "%" then
        match r0 with
        | String a (String b r) =>
            match hex_val a, hex_val b with
            | Some x, Some y => String (ascii_of_N (16 * x + y)) (plain_unquote r)
            | _, _ => String c (plain_unquote r0)
            end
        | _ => String c (plain_unquote r0)
        end
      else String c (plain_unquote r0)
  end.

Definition plain_unquote_plus (s : string) : string :=
  plain_unquote (replace_char "+" " " s).

Definition plain : UrlLib := {|
  quote_plus := plain_quote_plus;
  unquote_plus := plain_unquote_plus;
  unparse_head := fun h => h
|}.

End Urllib.
Export Urllib.

(** ** The world outside the process *)

Module World.

(** One product card as the page script returns it. *)
Record RawCard := {
  product_title : string;
  product_url : option string;
  product_id : option string;
  price : option string;
  amount_sold : string;
  product_rating : option string;
  product_thumbnail : option string
}.

(** Outcome of one [requests.post]. *)
Inductive http_result :=
| PostRaises
| Response (status_code : Z) (text : string).

(** Outcome of handing a document to the browser: [PageRaises] when any
    step from the debug save to [context.close()] raises (the product
    selector that never shows up included), otherwise the cards found. *)
Inductive page_result :=
| PageRaises
| Cards (raw_products : list RawCard).

(** [post url k] answers the [k]-th request for [url], counted from 0;
    [browse url attempt html] is the browser's outcome in that attempt. *)
Record Env := {
  post : string -> nat -> http_result;
  browse : string -> Z -> string -> page_result
}.

(** What a run leaves in the log. *)
Inductive event :=
| EvAttempt (url : string) (attempt : Z)
| EvPost (url : string)
| EvParsed (url : string) (n : nat)
| EvRetry (url : string) (attempt : Z)
| EvGiveUp (url : string)
| EvSaved (page_num : Z) (n : nat).

#[global] Instance event_eq_dec : EqDecision event.
Proof. solve_decision. Defined.







(** One line of the output file, as [json.loads(line.strip())] followed by
    [obj.get] sees it: [Malformed] when either raises, otherwise the JSON
    object.  A record written by [json.dumps] reads back as itself. *)
Inductive sink_line :=
| Malformed
| Entry (obj : gmap string pyval).


(** How a call ends. *)
Inductive outcome (A : Type) :=
| Returned (a : A)
| Raised
| Blocked.
Arguments Returned {A} a.
Arguments Raised {A}.
Arguments Blocked {A}.

End World.
Export World.

(** ** scraper/brightdata.py *)

Module Brightdata.

(** The test applied to a 200 response. *)
Definition accepts (html : string) : bool :=
  negb (String.eqb html "") && contains "<html" (lower html).

(** The [for attempt in range(1, Config.MAX_RETRIES + 1)] loop, [fuel]
    iterations before it ends; [k] requests were already sent. *)
Fixpoint fetch_loop (env : Env) (url : string) (fuel : nat) (k : nat)
  : option string * nat * list event :=
  match fuel with
  | O => (None, k, [])
  | S fuel' =>
      let retry :=
        let '(r, k', log) := fetch_loop env url fuel' (S k) in
        (r, k', EvPost url :: log) in
      match post env url k with
      | Response status_code text =>
          if status_code =? 200 then
            let html := strip text in
            if accepts html then (Some html, S k, [EvPost url]) else retry
          else retry
      | PostRaises => retry
      end
  end.

Definition fetch_via_brightdata (env : Env) (cls : Config) (url : string) (k : nat)
  : option string * nat * list event :=
  fetch_loop env url (Z.to_nat (MAX_RETRIES cls)) k.

End Brightdata.
Export Brightdata.

(** ** scraper/aliexpress_scraper.py *)

Module Scraper.

#[local] Open Scope list_scope.

Abbreviation item := (gmap string pyval).

(** [{k: v[0] for k, v in qs.items()}]; [None] stands for the
    [IndexError] of [v[0]] on an empty list. *)
Fixpoint first_values (qs : qdict) : option (list (string * string)) :=
  match qs with
  | [] => Some []
  | (k, v) :: qs' =>
      match v, first_values qs' with
      | v0 :: _, Some d => Some ((k, v0) :: d)
      | _, _ => None
      end
  end.

Definition with_page_param (L : UrlLib) (url : string) (page_num : Z) : option string :=
  let parsed := urlparse url in
  let qs := parse_qs L (query parsed) in
  let qs := dict_set qs "page" [str page_num] in
  match first_values qs with
  | None => None
  | Some d =>
      let new_query := urlencode L d in
      let new_parsed :=
        {| head := head parsed; query := new_query; fragment := fragment parsed |} in
      Some (urlunparse L new_parsed)
  end.

(** The dictionary built by the page script for one card. *)
Definition card_dict (c : RawCard) : item :=
  <["product_thumbnail" := of_opt (product_thumbnail c)]>
  (<["product_rating" := of_opt (product_rating c)]>
  (<["amount_sold_count" := PyStr (amount_sold c)]>
  (<["amount_sold" := PyStr (amount_sold c)]>
  (<["price" := of_opt (price c)]>
  (<["product_id" := of_opt (product_id c)]>
  (<["product_url" := of_opt (product_url c)]>
  (<["product_title" := PyStr (product_title c)]> ∅))))))).

(** The two assignments of the normalisation loop. *)
Definition normalize (c : RawCard) : item :=
  let item := card_dict c in
  let item := <["price" := of_opt (clean_price (price c))]> item in
  <["amount_sold_count" := PyStr (extract_sold_count (Some (amount_sold c)))]> item.

Definition parse_products_from_page (raw_products : list RawCard) : list item :=
  map normalize raw_products.

(** [not html or "<html" not in html] *)
Definition rejects (html : option string) : bool :=
  match html with
  | None => true
  | Some h => String.eqb h "" || negb (contains "<html" h)
  end.

(** The body of the [try] in one attempt: the cards, or [None] when it
    raises. *)
Definition try_page (env : Env) (url : string) (attempt : Z) (html : option string)
  : option (list RawCard) :=
  if rejects html then None
  else match browse env url attempt (default "" html) with
       | PageRaises => None
       | Cards raw_products => Some raw_products
       end.

(** The [for attempt in range(1, retries + 1)] loop with [fuel] iterations
    left.  Falling off the end of the loop returns [None]. *)
Fixpoint page_loop (env : Env) (cls : Config) (url : string) (retries : Z)
    (fuel : nat) (attempt : Z) (k : nat) : option (list item) * list event :=
  match fuel with
  | O => (None, [])
  | S fuel' =>
      let '(html, k', posts) := fetch_via_brightdata env cls url k in
      let tried := EvAttempt url attempt :: posts in
      match try_page env url attempt html with
      | Some raw_products =>
          let products := parse_products_from_page raw_products in
          (Some products, tried ++ [EvParsed url (length products)])
      | None =>
          if attempt <? retries then
            let '(r, log) := page_loop env cls url retries fuel' (attempt + 1) k' in
            (r, tried ++ EvRetry url attempt :: log)
          else (Some [], tried ++ [EvGiveUp url])
      end
  end.

Definition scrape_single_page (env : Env) (cls : Config) (url : string) (retries : Z)
  : option (list item) * list event :=
  page_loop env cls url retries (Z.to_nat retries) 1 0.

(** The filter of the list comprehension in [worker]. *)
Definition is_new (seen_urls : gset pyval) (it : item) : bool :=
  truthy (get it "product_url") && bool_decide (get it "product_url" ∉ seen_urls).

(** Admission: the comprehension, then the loop that marks the urls. *)
Definition admission (seen_urls : gset pyval) (products : list item)
  : list item * gset pyval :=
  let new_items := List.filter (is_new seen_urls) products in
  (new_items, fold_left (fun s it => s ∪ {[ get it "product_url" ]}) new_items seen_urls).

(** The loop over the lines of the output file when the run starts. *)
Definition load_line (seen_urls : gset pyval) (line : sink_line) : gset pyval :=
  match line with
  | Malformed => seen_urls
  | Entry obj =>
      if truthy (get obj "product_url") then seen_urls ∪ {[ get obj "product_url" ]}
      else seen_urls
  end.

(** [None] is the file that does not exist yet. *)
Definition load_seen_urls (output_file : option (list sink_line)) : gset pyval :=
  match output_file with
  | None => ∅
  | Some lines => fold_left load_line lines ∅
  end.

(** What the workers share. *)
Record State := {
  seen_urls : gset pyval;
  output_file : option (list sink_line);
  results : gmap Z Z;
  raised : bool;
  log : list event
}.

(** [with open(output_file, "a")] and the writes, when there is anything
    to write. *)
Definition append_items (file : option (list sink_line)) (new_items : list item)
  : option (list sink_line) :=
  match new_items with
  | [] => file
  | _ => Some (default [] file ++ map Entry new_items)
  end.

(** One worker, from the call of [scrape_single_page] to its [return].
    Nothing is awaited between the comprehension and the [return], so the
    shared state changes in one step. *)
Definition worker (L : UrlLib) (env : Env) (cls : Config) (start_url : string)
    (st : State) (page_num : Z) : State :=
  match with_page_param L start_url page_num with
  | None => {| seen_urls := seen_urls st; output_file := output_file st;
               results := results st; raised := true; log := log st |}
  | Some page_url =>
      let '(products, events) := scrape_single_page env cls page_url (MAX_RETRIES cls) in
      match products with
      | None =>
          {| seen_urls := seen_urls st; output_file := output_file st;
             results := results st; raised := true; log := log st ++ events |}
      | Some products =>
          let '(new_items, seen') := admission (seen_urls st) products in
          {| seen_urls := seen';
             output_file := append_items (output_file st) new_items;
             results := <[page_num := Z.of_nat (length new_items)]> (results st);
             raised := raised st;
             log := log st ++ events ++ [EvSaved page_num (length new_items)] |}
      end
  end.

(** [sum(r for r in results)] over the results in the order of [gather];
    [None] while a worker has not returned. *)
Definition gather (results : gmap Z Z) (pages : Z) : option (list Z) :=
  mapM (fun p => results !! p) (seqZ 1 pages).

Definition sum (rs : list Z) : Z := fold_right Z.add 0 rs.

(** [scrape_pages].  [schedule] lists the workers in the order in which
    they leave the semaphore block; a semaphore of size 0 lets none in. *)
Definition scrape_pages (L : UrlLib) (env : Env) (cls : Config)
    (start_url : string) (pages concurrency : Z)
    (file : option (list sink_line)) (schedule : list Z) : outcome Z * State :=
  let st0 := {| seen_urls := load_seen_urls file; output_file := file;
                results := ∅; raised := false; log := [] |} in
  if concurrency <? 0 then (Raised, st0)
  else
    let running := if concurrency =? 0 then [] else schedule in
    let st := fold_left (worker L env cls start_url) running st0 in
    if raised st then (Raised, st)
    else match gather (results st) pages with
         | None => (Blocked, st)
         | Some rs => (Returned (sum rs), st)
         end.

End Scraper.
Export Scraper.

(** ** Reference definitions and sample data *)

Module Reference.

(** Price as the specification words it: keep digits, commas and dots,
    turn commas into dots, nothing left means no price. *)
Definition price_spec (text : string) : option string :=
  let kept := sfilter (fun c => is_digit c || is_comma c || is_dot c) text in
  match kept with
  | EmptyString => None
  | _ => Some (replace_char "," "." kept)
  end.

(** Sold count as the specification words it: the first run of digits,
    commas inside the run removed, ["0"] when there is no digit. *)
Definition sold_count_spec (text : option string) : string :=
  match drop_until is_digit (default "" text) with
  | EmptyString => "0"
  | run =>
      remove_char "," (fst (span (fun c => is_digit c || is_comma c) run))
  end.


(** A card whose sold label carries no digit. *)
Definition card_no_digits : RawCard := {|
  product_title := "Watch";
  product_url := Some "https://www.aliexpress.com/item/1.html";
  product_id := Some "1";
  price := Some "US $9.99";
  amount_sold := "New";
  product_rating := None;
  product_thumbnail := None
|}.

Definition url_of (it : gmap string pyval) : pyval := get it "product_url".

(** The urls that loading takes from the lines of a file, in order. *)
Definition entry_urls (lines : list sink_line) : list pyval :=
  omap (fun l => match l with
                 | Entry obj =>
                     if truthy (url_of obj) then Some (url_of obj) else None
                 | Malformed => None
                 end) lines.



(** A record as the scraper writes it, and a file that holds it twice. *)
Definition record_1 : gmap string pyval := normalize card_no_digits.


Definition page_1 : string := "https://www.aliexpress.com/w/a.html?page=1".

Definition empty_document : string := "<html><body></body></html>".




(** The url of page [p], as [worker] computes it. *)
Definition page_url (L : UrlLib) (start_url : string) (p : Z) : string :=
  default "" (with_page_param L start_url p).

(** Lines of a file that may not exist. *)
Definition lines_of (file : option (list sink_line)) : list sink_line :=
  default [] file.


Definition start_1 : string := "https://www.aliexpress.com/w/a.html?page=1".

(** Page 1 parses one card, the other pages never load. *)
Definition env_page_1_only : Env := {|
  post := fun _ _ => Response 200 empty_document;
  browse := fun url _ _ =>
    if String.eqb url page_1 then Cards [card_no_digits] else PageRaises
|}.


End Reference.
Export Reference.

(** ** Further reference definitions *)

Module Coverage.

#[local] Open Scope list_scope.

(** What [clean_price] can leave in a price. *)
Definition is_price_char (c : ascii) : bool := is_digit c || is_dot c.

(** A response that ends the loop of [fetch_via_brightdata]. *)
Definition acceptable (r : http_result) : bool :=
  match r with
  | Response status_code text => (status_code =? 200) && accepts (strip text)
  | PostRaises => false
  end.

(** The document a response carries once it is accepted. *)
Definition document (r : http_result) : string :=
  match r with
  | Response _ text => strip text
  | PostRaises => ""
  end.

(** The records page [p] yields, none when its pipeline returns no list. *)
Definition page_products (L : UrlLib) (env : Env) (cls : Config)
    (start_url : string) (p : Z) : list (gmap string pyval) :=
  default [] (fst (scrape_single_page env cls (page_url L start_url p)
                     (MAX_RETRIES cls))).

(** The urls of the records that pass the truth test of the filter. *)
Definition truthy_urls (items : list (gmap string pyval)) : list pyval :=
  map url_of (List.filter (fun it => truthy (url_of it)) items).

(** The urls found on the pages of a list. *)
Definition urls_of_pages (L : UrlLib) (env : Env) (cls : Config)
    (start_url : string) (pages : list Z) : gset pyval :=
  list_to_set (concat (map (fun p => truthy_urls (page_products L env cls start_url p))
                           pages)).

(** The parameters [with_page_param] encodes into the new query. *)
Definition page_params (L : UrlLib) (url : string) (page_num : Z)
  : list (string * string) :=
  map (fun kv => (fst kv, hd "" (snd kv)))
      (dict_set (parse_qs L (query (urlparse url))) "page" [str page_num]).

(** A document with its marker in capitals. *)
Definition capital_document : string := "<HTML><BODY></BODY></HTML>".

Definition env_capitals : Env := {|
  post := fun _ _ => Response 200 capital_document;
  browse := fun _ _ _ => Cards [card_no_digits]
|}.

(** The settings that allow no attempt. *)
Definition no_retries : Config := {|
  MAX_RETRIES := 0;
  RETRY_BASE_DELAY := 2;
  RETRY_BACKOFF_FACTOR := 2;
  RETRY_JITTER := 1;
  RETRY_MAX_DELAY := 30
|}.

End Coverage.
Export Coverage.

(** * Properties *)

(** ** Strings *)

Section TextFacts.

Lemma sfilter_sforall p s : sforall p (sfilter p s) = true.
Proof.
  induction s as [|c r IH]; simpl; [reflexivity|].
  destruct (p c) eqn:E; simpl; [rewrite E|]; auto.
Qed.

Lemma sforall_smap (p q : ascii -> bool) f s :
  (forall c, p c = true -> q (f c) = true) ->
  sforall p s = true -> sforall q (smap f s) = true.
Proof.
  intros Hpq. induction s as [|c r IH]; simpl; [auto|].
  intros [Hc Hr]%andb_prop. rewrite (Hpq _ Hc). auto.
Qed.

Lemma sfilter_ext (p q : ascii -> bool) s :
  (forall c, p c = q c) -> sfilter p s = sfilter q s.
Proof.
  intros E. induction s as [|c r IH]; simpl; [reflexivity|].
  rewrite E, IH. reflexivity.
Qed.

Lemma smap_empty f s : smap f s = EmptyString -> s = EmptyString.
Proof. destruct s; simpl; [reflexivity|discriminate]. Qed.

Lemma eqb_empty s : String.eqb s "" = true <-> s = "".
Proof. apply String.eqb_eq. Qed.

Lemma lstrip_id s :
  sforall (fun c => negb (is_space c)) s = true -> lstrip s = s.
Proof.
  destruct s as [|c r]; simpl; [reflexivity|].
  intros [Hc _]%andb_prop. apply negb_true_iff in Hc. rewrite Hc. reflexivity.
Qed.

Lemma rstrip_id s :
  sforall (fun c => negb (is_space c)) s = true -> rstrip s = s.
Proof.
  induction s as [|c r IH]; simpl; [reflexivity|].
  intros [Hc Hr]%andb_prop. apply negb_true_iff in Hc.
  rewrite (IH Hr), Hc. destruct r; reflexivity.
Qed.

Lemma strip_id s :
  sforall (fun c => negb (is_space c)) s = true -> strip s = s.
Proof.
  intros H. unfold strip. rewrite (lstrip_id _ H). apply rstrip_id, H.
Qed.

Lemma digit_not_space c : is_digit c = true -> is_space c = false.
Proof.
  unfold is_digit, is_space. intros H.
  apply andb_prop in H as [H1 H2].
  apply N.leb_le in H1. apply N.leb_le in H2.
  repeat (apply orb_false_iff; split);
    try (apply andb_false_iff);
    try (apply N.eqb_neq; lia).
  - right. apply N.leb_gt. lia.
  - right. apply N.leb_gt. lia.
Qed.

Lemma dot_not_space c : is_dot c = true -> is_space c = false.
Proof.
  unfold is_dot. intros H. apply Ascii.eqb_eq in H. subst c. reflexivity.
Qed.

Lemma span_app p q s :
  (forall c, p c = true -> q c = true) ->
  let '(a, rest) := span p s in
  let '(b, rest') := span q rest in
  span q s = (a ++ b, rest').
Proof.
  intros Hpq. induction s as [|c r IH]; simpl; [reflexivity|].
  destruct (p c) eqn:E.
  - destruct (span p r) as [a rest]. destruct (span q rest) as [b rest'].
    rewrite (Hpq _ E), IH. reflexivity.
  - simpl. destruct (q c); [|reflexivity].
    destruct (span q r); reflexivity.
Qed.

Lemma span_sforall p s : sforall p (fst (span p s)) = true.
Proof.
  induction s as [|c r IH]; simpl; [reflexivity|].
  destruct (p c) eqn:E; [|reflexivity].
  destruct (span p r); simpl in *. rewrite E, IH. reflexivity.
Qed.

End TextFacts.

(** ** scraper/utils.py *)

Section UtilsFacts.

Lemma price_chars_not_space t :
  sforall (fun c => negb (is_space c))
          (replace_char "," "." (sub_non_price t)) = true.
Proof.
  unfold replace_char, sub_non_price.
  eapply sforall_smap; [|apply sfilter_sforall].
  intros c Hc. simpl in Hc.
  destruct (Ascii.eqb c ",") eqn:Ecomma; [reflexivity|].
  apply negb_true_iff.
  apply orb_prop in Hc as [Hc|Hc]; [apply orb_prop in Hc as [Hc|Hc]|].
  - apply digit_not_space, Hc.
  - apply dot_not_space, Hc.
  - unfold is_comma in Hc. congruence.
Qed.

(** C8: [clean_price] keeps the digits, commas and dots of its argument,
    writes every comma as a dot, and answers [None], never the empty
    string, when nothing is kept (an absent or empty argument
    included). *)
Theorem clean_price_spec (text : option string) :
  clean_price text = match text with
                     | None => None
                     | Some t => price_spec t
                     end
  /\ clean_price text <> Some "".
Proof.
  assert (E : clean_price text =
              match text with None => None | Some t => price_spec t end).
  { destruct text as [t|]; [|reflexivity].
    unfold clean_price, price_spec.
    destruct (String.eqb t "") eqn:Et.
    - apply eqb_empty in Et. subst t. reflexivity.
    - rewrite (strip_id _ (price_chars_not_space t)).
      unfold sub_non_price.
      rewrite (sfilter_ext _ (fun c => is_digit c || is_comma c || is_dot c));
        [|intros c; destruct (is_digit c), (is_dot c), (is_comma c); reflexivity].
      destruct (sfilter _ t) eqn:Ek; reflexivity. }
  split; [exact E|].
  rewrite E. destruct text as [t|]; [|discriminate].
  unfold price_spec. destruct (sfilter _ t); [discriminate|].
  simpl. discriminate.
Qed.

Lemma search_sold_drop s :
  search_sold s =
    match drop_until is_digit s with
    | EmptyString => None
    | run => Some (fst (span (fun c => is_digit c || is_comma c) run))
    end.
Proof.
  induction s as [|c r IH]; [reflexivity|].
  cbn [search_sold drop_until].
  destruct (is_digit c) eqn:Ec; [|exact IH].
  pose proof (span_app is_digit (fun c => is_comma c || is_digit c)
                (String c r)) as H.
  destruct (span is_digit (String c r)) as [digits rest].
  destruct (span _ rest) as [tail rest'].
  assert (Hs : span (fun c => is_digit c || is_comma c) (String c r)
               = (digits ++ tail, rest')).
  { rewrite <- H; [|intros x ->; apply orb_true_r].
    clear. generalize (String c r). intros s.
    induction s as [|x s IH]; simpl; [reflexivity|].
    rewrite (orb_comm (is_digit x)). rewrite IH. reflexivity. }
  rewrite Hs. reflexivity.
Qed.

Lemma remove_comma_digits s :
  sforall (fun c => is_digit c || is_comma c) s = true ->
  sforall is_digit (remove_char "," s) = true.
Proof.
  unfold remove_char.
  induction s as [|c r IH]; simpl; [reflexivity|].
  intros [Hc Hr]%andb_prop. unfold is_comma in Hc.
  destruct (Ascii.eqb c ",") eqn:E; simpl; [auto|].
  rewrite orb_false_r in Hc. rewrite Hc. auto.
Qed.

(** C7 (amended): [extract_sold_count] returns a string, namely the first
    run of digits and commas that starts with a digit, commas removed; the
    string is never empty, holds digits only, and is ["0"] when the text
    is absent or has no digit.  The normalisation stores that string under
    ["amount_sold_count"]. *)
Theorem extract_sold_count_spec (text : option string) :
  extract_sold_count text = sold_count_spec text
  /\ extract_sold_count text <> ""
  /\ sforall is_digit (extract_sold_count text) = true
  /\ (sexists is_digit (default "" text) = false -> extract_sold_count text = "0")
  /\ forall c, amount_sold c = default "" text ->
       get (normalize c) "amount_sold_count" = PyStr (extract_sold_count text).
Proof.
  assert (E : extract_sold_count text = sold_count_spec text).
  { unfold extract_sold_count, sold_count_spec. rewrite search_sold_drop.
    destruct (drop_until is_digit (default "" text)); reflexivity. }
  assert (D : forall s, match drop_until is_digit s with
                        | EmptyString => True
                        | String c _ => is_digit c = true
                        end).
  { induction s as [|c r IH]; simpl; [exact I|].
    destruct (is_digit c) eqn:Ec; [exact Ec|exact IH]. }
  split; [exact E|].
  split; [|split; [|split]].
  - rewrite E. unfold sold_count_spec.
    specialize (D (default "" text)).
    destruct (drop_until is_digit (default "" text)) as [|c r]; [discriminate|].
    unfold remove_char. simpl. rewrite D. simpl. destruct (span _ r). simpl.
    assert (Ascii.eqb c "," = false) as ->.
    { apply Ascii.eqb_neq. intros ->. discriminate. }
    discriminate.
  - rewrite E. unfold sold_count_spec.
    destruct (drop_until is_digit (default "" text)) as [|c r] eqn:Ed;
      [reflexivity|].
    apply remove_comma_digits, span_sforall.
  - intros Hno. rewrite E. unfold sold_count_spec.
    assert (Hd : forall s, sexists is_digit s = false ->
                           drop_until is_digit s = "").
    { induction s as [|c r IH]; simpl; [reflexivity|].
      intros [-> Hr]%orb_false_iff. auto. }
    rewrite (Hd _ Hno). reflexivity.
  - intros c Hc. unfold normalize, get.
    rewrite lookup_insert_eq. simpl. rewrite Hc.
    destruct text; reflexivity.
Qed.

(** C7, as stated, fails: for a sold label without digits the stored count
    is the string ["0"], not the integer 0. *)
Lemma sold_count_is_not_an_integer :
  get (normalize card_no_digits) "amount_sold_count" = PyStr "0"
  /\ get (normalize card_no_digits) "amount_sold_count" <> PyInt 0
  /\ extract_sold_count None = "0".
Proof. vm_compute. repeat split; discriminate. Qed.

Lemma extract_sold_count_spec_witness :
  sexists is_digit (default "" (Some "New")) = false
  /\ amount_sold card_no_digits = default "" (Some "New")
  /\ extract_sold_count (Some "New") = "0"
  /\ get (normalize card_no_digits) "amount_sold_count"
     = PyStr (extract_sold_count (Some "New")).
Proof.
  assert (H1 : sexists is_digit (default "" (Some "New")) = false) by reflexivity.
  assert (H2 : amount_sold card_no_digits = default "" (Some "New")) by reflexivity.
  split; [exact H1|]. split; [exact H2|].
  destruct (extract_sold_count_spec (Some "New")) as (_ & _ & _ & Hzero & Hstored).
  split; [exact (Hzero H1)|exact (Hstored card_no_digits H2)].
Defined.

End UtilsFacts.

(** ** scraper/config.py *)

Section ConfigFacts.

Local Open Scope Q_scope.

Lemma round_half_even_cases x :
  (round_half_even x = Qfloor x /\ x - inject_Z (Qfloor x) <= 1 # 2)
  \/ (round_half_even x = (Qfloor x + 1)%Z /\ 1 # 2 <= x - inject_Z (Qfloor x)).
Proof.
  unfold round_half_even.
  destruct (x - inject_Z (Qfloor x) ?= 1 # 2) eqn:E.
  - apply Qeq_alt in E.
    destruct (Z.even (Qfloor x)); [left|right]; split; auto; rewrite E;
      apply Qle_refl.
  - apply Qlt_alt in E. left. split; [reflexivity|apply Qlt_le_weak, E].
  - apply Qgt_alt in E. right. split; [reflexivity|apply Qlt_le_weak, E].
Qed.








End ConfigFacts.

(** ** urllib.parse *)

Section StringSplitting.

Lemma sexists_app p a b : sexists p (a ++ b) = sexists p a || sexists p b.
Proof.
  induction a as [|c r IH]; simpl; [reflexivity|].
  rewrite IH. apply orb_assoc.
Qed.

Lemma sexists_weaken (p q : ascii -> bool) s :
  (forall c, p c = true -> q c = true) ->
  sexists q s = false -> sexists p s = false.
Proof.
  intros Hpq. induction s as [|c r IH]; simpl; [reflexivity|].
  intros [Hc Hr]%orb_false_iff. rewrite (IH Hr), orb_false_r.
  destruct (p c) eqn:E; [|reflexivity]. rewrite (Hpq _ E) in Hc. discriminate.
Qed.

Lemma partition_absent sep s :
  sexists (fun c => Ascii.eqb c sep) s = false -> partition sep s = (s, None).
Proof.
  induction s as [|c r IH]; simpl; [reflexivity|].
  intros [-> Hr]%orb_false_iff. rewrite (IH Hr). reflexivity.
Qed.

Lemma partition_app sep a b :
  sexists (fun c => Ascii.eqb c sep) a = false ->
  partition sep (a ++ String sep b) = (a, Some b).
Proof.
  induction a as [|c r IH]; simpl.
  - intros _. rewrite Ascii.eqb_refl. reflexivity.
  - intros [-> Hr]%orb_false_iff. rewrite (IH Hr). reflexivity.
Qed.

Lemma partition_fst_clean sep s :
  sexists (fun c => Ascii.eqb c sep) (fst (partition sep s)) = false.
Proof.
  induction s as [|c r IH]; simpl; [reflexivity|].
  destruct (Ascii.eqb c sep) eqn:E; [reflexivity|].
  destruct (partition sep r). simpl in *. rewrite E, IH. reflexivity.
Qed.

Lemma partition_fst_sub p sep s :
  sexists p s = false -> sexists p (fst (partition sep s)) = false.
Proof.
  induction s as [|c r IH]; simpl; [reflexivity|].
  intros [Hc Hr]%orb_false_iff.
  destruct (Ascii.eqb c sep); [reflexivity|].
  destruct (partition sep r). simpl in *. rewrite Hc, (IH Hr). reflexivity.
Qed.

Lemma split_absent sep s :
  sexists (fun c => Ascii.eqb c sep) s = false -> split sep s = [s].
Proof.
  induction s as [|c r IH]; simpl; [reflexivity|].
  intros [-> Hr]%orb_false_iff. rewrite (IH Hr). reflexivity.
Qed.

Lemma split_app sep a b :
  sexists (fun c => Ascii.eqb c sep) a = false ->
  split sep (a ++ String sep b) = a :: split sep b.
Proof.
  induction a as [|c r IH]; simpl.
  - intros _. rewrite Ascii.eqb_refl. reflexivity.
  - intros [-> Hr]%orb_false_iff. rewrite (IH Hr). reflexivity.
Qed.

Lemma split_join sep parts :
  parts <> [] ->
  Forall (fun x => sexists (fun c => Ascii.eqb c sep) x = false) parts ->
  split sep (join (String sep "") parts) = parts.
Proof.
  induction parts as [|x xs IH]; [congruence|].
  intros _ Hall. inversion Hall as [|? ? Hx Hxs]; subst.
  destruct xs as [|y ys].
  - simpl. apply split_absent, Hx.
  - change (join (String sep "") (x :: y :: ys))
      with (x ++ String sep (join (String sep "") (y :: ys))).
    rewrite split_app by exact Hx.
    rewrite IH; [reflexivity|discriminate|exact Hxs].
Qed.

Lemma app_empty_l (a b : string) : a ++ b = "" -> a = "".
Proof. destruct a; [reflexivity|discriminate]. Qed.

Lemma str_nonempty n : str n <> "".
Proof.
  unfold str, NilZero.string_of_int, NilZero.string_of_uint.
  destruct (Z.to_int n) as [d|d]; [|discriminate].
  destruct d; simpl; discriminate.
Qed.

End StringSplitting.

Section Dictionaries.

#[local] Open Scope list_scope.

Lemma dict_append_keys d name value k :
  In k (map fst (dict_append d name value)) <-> In k (map fst d) \/ k = name.
Proof.
  induction d as [|[k' vs] d IH]; simpl.
  - intuition.
  - destruct (String.eqb k' name) eqn:E; simpl.
    + apply String.eqb_eq in E. subst. intuition.
    + rewrite IH. intuition.
Qed.

Lemma dict_set_keys d name vs k :
  In k (map fst (dict_set d name vs)) <-> In k (map fst d) \/ k = name.
Proof.
  induction d as [|[k' old] d IH]; simpl.
  - intuition.
  - destruct (String.eqb k' name) eqn:E; simpl.
    + apply String.eqb_eq in E. subst. intuition.
    + rewrite IH. intuition.
Qed.

Lemma dict_append_wf d name value :
  value <> ""%string -> well_formed d -> well_formed (dict_append d name value).
Proof.
  intros Hv [Hnd Hall]. induction d as [|[k vs] d IH]; simpl.
  - split; [repeat constructor; rewrite list_elem_of_In; simpl; tauto|].
    repeat constructor; simpl; [discriminate|exact Hv].
  - simpl in Hnd. apply NoDup_cons in Hnd as [Hk Hnd].
    inversion Hall as [|? ? [Hne Hvs] Hrest]; subst. simpl in *.
    destruct (String.eqb k name) eqn:E.
    + split; [simpl; apply NoDup_cons; auto|].
      constructor; [|exact Hrest]. simpl. split.
      * destruct vs; discriminate.
      * apply Forall_app. split; [exact Hvs|repeat constructor; exact Hv].
    + destruct (IH Hnd Hrest) as [Hnd' Hall'].
      split; [|constructor; auto].
      simpl. apply NoDup_cons. split; [|exact Hnd'].
      rewrite list_elem_of_In, dict_append_keys.
      rewrite list_elem_of_In in Hk.
      apply String.eqb_neq in E. intuition.
Qed.

Lemma dict_set_wf d name vs :
  vs <> [] -> Forall (fun v => v <> ""%string) vs ->
  well_formed d -> well_formed (dict_set d name vs).
Proof.
  intros Hne Hvs [Hnd Hall]. induction d as [|[k old] d IH]; simpl.
  - split; [repeat constructor; rewrite list_elem_of_In; simpl; tauto|].
    repeat constructor; simpl; auto.
  - simpl in Hnd. apply NoDup_cons in Hnd as [Hk Hnd].
    inversion Hall as [|? ? Hold Hrest]; subst.
    destruct (String.eqb k name) eqn:E.
    + split; [simpl; apply NoDup_cons; auto|].
      constructor; [split; auto|exact Hrest].
    + destruct (IH Hnd Hrest) as [Hnd' Hall'].
      split; [|constructor; auto].
      simpl. apply NoDup_cons. split; [|exact Hnd'].
      rewrite list_elem_of_In, dict_set_keys.
      rewrite list_elem_of_In in Hk.
      apply String.eqb_neq in E. intuition.
Qed.


Lemma dict_get_set d name vs k :
  dict_get (dict_set d name vs) k =
    if String.eqb name k then Some vs else dict_get d k.
Proof.
  induction d as [|[k' old] d IH]; simpl.
  - rewrite String.eqb_sym. destruct (String.eqb k name); reflexivity.
  - destruct (String.eqb k' name) eqn:E; simpl.
    + apply String.eqb_eq in E. subst k'.
      destruct (String.eqb name k); reflexivity.
    + rewrite IH. destruct (String.eqb k' k) eqn:E'; [|reflexivity].
      apply String.eqb_eq in E'. subst k'. rewrite String.eqb_sym, E.
      reflexivity.
Qed.


Lemma fold_append_wf pairs d0 :
  Forall (fun kv => snd kv <> ""%string) pairs ->
  well_formed d0 ->
  well_formed (fold_left (fun d nv => dict_append d (fst nv) (snd nv)) pairs d0).
Proof.
  revert d0. induction pairs as [|[n v] pairs IH]; intros d0 Hp Hd; simpl; [exact Hd|].
  inversion Hp; subst. apply IH; [assumption|]. apply dict_append_wf; assumption.
Qed.

Lemma first_values_map qs :
  well_formed qs ->
  first_values qs = Some (map (fun kv => (fst kv, hd ""%string (snd kv))) qs).
Proof.
  intros [_ Hall]. induction qs as [|[k vs] qs IH]; simpl; [reflexivity|].
  inversion Hall as [|? ? [Hne _] Hrest]; subst. simpl in Hne.
  rewrite (IH Hrest). destruct vs; [congruence|reflexivity].
Qed.

Lemma dict_get_first qs k :
  dict_get (map (fun kv => (fst kv, hd ""%string (snd kv))) qs) k =
    hd ""%string <$> dict_get qs k.
Proof.
  induction qs as [|[k' vs] qs IH]; simpl; [reflexivity|].
  destruct (String.eqb k' k); [reflexivity|exact IH].
Qed.


End Dictionaries.

Section QueryRewriting.

Context (L : UrlLib) `{!UrlLibLaws L}.

Lemma quote_clean (p : ascii -> bool) t :
  (forall c, p c = true -> is_query_delim c = true) ->
  sexists p (quote_plus L t) = false.
Proof. intros Hp. eapply sexists_weaken; [exact Hp|apply quote_no_delim]. Qed.

Lemma quote_nonempty t : t <> "" -> quote_plus L t <> "".
Proof.
  intros Ht E. apply Ht. rewrite <- (unquote_quote t), E. apply unquote_empty.
Qed.

Lemma enc_clean (p : ascii -> bool) kv :
  (forall c, p c = true -> is_query_delim c = true) ->
  p "="%char = false ->
  sexists p (encode_field L kv) = false.
Proof.
  intros Hp Heq. unfold encode_field. rewrite !sexists_app. simpl.
  rewrite !(quote_clean p _ Hp), Heq. reflexivity.
Qed.

Lemma parse_field_enc kv : snd kv <> "" -> parse_field L (encode_field L kv) = Some kv.
Proof.
  intros Hv. unfold parse_field.
  destruct (String.eqb (encode_field L kv) "") eqn:E.
  - apply String.eqb_eq in E. unfold encode_field in E.
    destruct (quote_plus L (fst kv)); discriminate.
  - unfold encode_field. change ("=" ++ quote_plus L (snd kv))
      with (String "=" (quote_plus L (snd kv))).
    rewrite partition_app.
    2:{ apply quote_clean. intros c ->%Ascii.eqb_eq. reflexivity. }
    destruct (String.eqb (quote_plus L (snd kv)) "") eqn:E'.
    + apply String.eqb_eq in E'. exfalso. revert E'. apply quote_nonempty, Hv.
    + rewrite !unquote_quote. destruct kv; reflexivity.
Qed.


Lemma parse_qsl_urlencode d :
  Forall (fun kv => snd kv <> "") d -> parse_qsl L (urlencode L d) = d.
Proof.
  intros Hd. unfold parse_qsl, urlencode.
  destruct d as [|kv d]; [reflexivity|].
  rewrite (split_join "&").
  - induction Hd as [|x xs Hx Hxs IH]; [reflexivity|].
    cbn [map omap list_omap]. rewrite (parse_field_enc x Hx).
    destruct xs; [reflexivity|]. f_equal. apply IH.
  - discriminate.
  - apply List.Forall_forall. intros x [kv' [<- _]]%in_map_iff.
    apply enc_clean; [|reflexivity].
    intros c ->%Ascii.eqb_eq. reflexivity.
Qed.

Lemma urlencode_clean (p : ascii -> bool) d :
  (forall c, p c = true -> is_query_delim c = true) ->
  p "="%char = false -> p "&"%char = false ->
  sexists p (urlencode L d) = false.
Proof.
  intros Hp Heq Hamp. unfold urlencode.
  induction d as [|kv d IH]; [reflexivity|].
  destruct d as [|kv' d'].
  - simpl. apply enc_clean; assumption.
  - change (join "&" (map (encode_field L) (kv :: kv' :: d')))
      with (encode_field L kv ++ "&" ++ join "&" (map (encode_field L) (kv' :: d'))).
    rewrite !sexists_app. simpl. rewrite (enc_clean p kv Hp Heq), Hamp.
    exact IH.
Qed.

Lemma urlencode_nonempty d : d <> [] -> urlencode L d <> "".
Proof.
  destruct d as [|kv d]; [congruence|]. intros _ E.
  unfold urlencode in E.
  assert (He : encode_field L kv <> "").
  { unfold encode_field. intros H. apply app_empty_l in H.
    destruct (quote_plus L (fst kv)) eqn:Eq; [|discriminate].
    unfold encode_field in *. clear H.
    revert E. simpl. rewrite Eq. destruct d; simpl; discriminate. }
  destruct d; simpl in E.
  - exact (He E).
  - apply app_empty_l in E. exact (He E).
Qed.

Lemma head_clean url : sexists is_head_delim (head (urlparse url)) = false.
Proof.
  unfold urlparse.
  pose proof (partition_fst_clean "#" url) as Hhash.
  destruct (partition "#" url) as [u frag]. simpl in Hhash.
  pose proof (partition_fst_clean "?" u) as Hq.
  pose proof (partition_fst_sub (fun c => Ascii.eqb c "#") "?" u Hhash) as Hh.
  destruct (partition "?" u) as [h qry]. simpl in *.
  clear - Hq Hh. induction h as [|c r IH]; simpl in *; [reflexivity|].
  apply orb_false_iff in Hq as [Hq1 Hq2].
  apply orb_false_iff in Hh as [Hh1 Hh2].
  unfold is_head_delim. rewrite Hq1, Hh1. simpl. auto.
Qed.


Lemma parse_qsl_values qs : Forall (fun kv => snd kv <> "") (parse_qsl L qs).
Proof.
  unfold parse_qsl. induction (split "&" qs) as [|x xs IH]; [constructor|].
  cbn [omap list_omap]. destruct (parse_field L x) as [kv|] eqn:E; [|exact IH].
  constructor; [|exact IH].
  unfold parse_field in E. destruct (String.eqb x ""); [discriminate|].
  destruct (partition "=" x) as [name [value|]]; [|discriminate].
  destruct (String.eqb value "") eqn:Ev; [discriminate|].
  injection E as <-. simpl. intros H. apply unquote_nonempty in H.
  apply String.eqb_neq in Ev. contradiction.
Qed.

Lemma parse_qs_wf qs : well_formed (parse_qs L qs).
Proof.
  unfold parse_qs. apply fold_append_wf; [apply parse_qsl_values|].
  split; constructor.
Qed.



End QueryRewriting.

Section PlainInstance.

Ltac each_char c :=
  destruct c as [[] [] [] [] [] [] [] []].

Lemma plain_unquote_quote_char c r :
  plain_unquote (replace_char "+" " " (quote_char c ++ r))
  = String c (plain_unquote (replace_char "+" " " r)).
Proof. each_char c; reflexivity. Qed.

Lemma quote_char_clean c : sexists is_query_delim (quote_char c) = false.
Proof. each_char c; reflexivity. Qed.

Lemma plain_unquote_nonempty s : plain_unquote s = "" -> s = "".
Proof.
  destruct s as [|c r]; [reflexivity|]. simpl.
  destruct (Ascii.eqb c "%"); [|discriminate].
  destruct r as [|a [|b r]]; try discriminate.
  destruct (hex_val a), (hex_val b); discriminate.
Qed.

#[global] Instance plain_laws : UrlLibLaws plain.
Proof.
  split; cbn [quote_plus unquote_plus unparse_head plain].
  - intros t. unfold plain_unquote_plus.
    induction t as [|c r IH]; [reflexivity|].
    cbn [plain_quote_plus]. rewrite plain_unquote_quote_char, IH. reflexivity.
  - reflexivity.
  - intros s H. apply plain_unquote_nonempty in H.
    destruct s; [reflexivity|discriminate].
  - intros t. induction t as [|c r IH]; [reflexivity|].
    cbn [plain_quote_plus]. rewrite sexists_app, quote_char_clean, IH.
    reflexivity.
  - auto.
Qed.


End PlainInstance.

(** ** Fetching one page *)

Section PageFacts.

#[local] Open Scope list_scope.
#[local] Open Scope nat_scope.

Variables (env : Env) (cls : Config) (url : string).










End PageFacts.

Section PageExamples.

#[local] Open Scope nat_scope.




End PageExamples.

(** ** Admission and the index *)

Section AdmissionFacts.

#[local] Open Scope list_scope.
#[local] Open Scope nat_scope.

Lemma mark_fold (items : list item) (seen : gset pyval) :
  fold_left (fun s it => s ∪ {[ get it "product_url" ]}) items seen
  = seen ∪ list_to_set (map url_of items).
Proof.
  revert seen. induction items as [|it items IH]; intros seen; simpl.
  - set_solver.
  - rewrite IH. unfold url_of. set_solver.
Qed.

Lemma admission_marks seen products :
  snd (admission seen products)
  = seen ∪ list_to_set (map url_of (fst (admission seen products))).
Proof. unfold admission. simpl. apply mark_fold. Qed.

Lemma admission_fresh seen products it :
  In it (fst (admission seen products)) ->
  In it products /\ truthy (url_of it) = true /\ url_of it ∉ seen.
Proof.
  unfold admission. simpl. intros [Hin Hnew]%filter_In.
  unfold is_new in Hnew. apply andb_prop in Hnew as [Ht Hs].
  apply bool_decide_eq_true in Hs. auto.
Qed.

(** A url marked by one call is refused by every later call. *)
Lemma admission_not_again seen products it products' it' :
  In it (fst (admission seen products)) ->
  In it' (fst (admission (snd (admission seen products)) products')) ->
  url_of it' <> url_of it.
Proof.
  intros Hin Hin' E.
  apply admission_fresh in Hin' as (_ & _ & Hfresh).
  apply Hfresh. rewrite admission_marks, E.
  apply elem_of_union_r, elem_of_list_to_set, list_elem_of_In.
  apply in_map, Hin.
Qed.

(** C2 fails on the code: a page that lists the same url twice has both
    cards admitted, because the filter runs on the whole page before any
    of its urls is marked. *)
Theorem admission_duplicate_in_page :
  fst (admission ∅ (parse_products_from_page [card_no_digits; card_no_digits]))
  = [record_1; record_1]
  /\ ~ NoDup (map url_of
                (fst (admission ∅ (parse_products_from_page
                                 [card_no_digits; card_no_digits])))).
Proof.
  assert (E : fst (admission ∅ (parse_products_from_page [card_no_digits; card_no_digits]))
              = [record_1; record_1]).
  { unfold admission, parse_products_from_page. cbn [fst map List.filter].
    fold record_1.
    assert (Hn : is_new ∅ record_1 = true).
    { unfold is_new. apply andb_true_intro. split; [reflexivity|].
      apply bool_decide_eq_true. set_solver. }
    rewrite Hn. reflexivity. }
  split; [exact E|]. rewrite E. simpl.
  intros H. apply NoDup_cons in H as [H _]. apply H. left.
Qed.

Lemma load_fold lines (seen : gset pyval) :
  fold_left load_line lines seen = seen ∪ list_to_set (entry_urls lines).
Proof.
  revert seen. induction lines as [|l lines IH]; intros seen; simpl.
  - set_solver.
  - rewrite IH. destruct l as [|obj]; simpl; [reflexivity|].
    unfold url_of. destruct (truthy (get obj "product_url")); set_solver.
Qed.







End AdmissionFacts.

(** ** The run *)

Section RunFacts.

#[local] Open Scope list_scope.

Variables (L : UrlLib) (env : Env) (cls : Config) (start_url : string).

Lemma dict_append_nonempty d name value :
  Forall (fun kv => snd kv <> []) d ->
  Forall (fun kv => snd kv <> []) (dict_append d name value).
Proof.
  induction d as [|[k vs] d IH]; simpl; intros H.
  - repeat constructor. discriminate.
  - inversion H as [|? ? Hk Hd]; subst.
    destruct (String.eqb k name); constructor; auto.
    simpl. destruct vs; discriminate.
Qed.

Lemma dict_set_nonempty d name vs :
  vs <> [] ->
  Forall (fun kv => snd kv <> []) d ->
  Forall (fun kv => snd kv <> []) (dict_set d name vs).
Proof.
  intros Hvs. induction d as [|[k old] d IH]; simpl; intros H.
  - repeat constructor. exact Hvs.
  - inversion H as [|? ? Hk Hd]; subst.
    destruct (String.eqb k name); constructor; auto.
Qed.

Lemma parse_qs_nonempty qs : Forall (fun kv => snd kv <> []) (parse_qs L qs).
Proof.
  unfold parse_qs.
  assert (H : forall pairs d0,
             Forall (fun kv => snd kv <> []) d0 ->
             Forall (fun kv => snd kv <> [])
               (fold_left (fun d nv => dict_append d (fst nv) (snd nv)) pairs d0)).
  { induction pairs as [|nv pairs IH]; intros d0 Hd; simpl; [exact Hd|].
    apply IH, dict_append_nonempty, Hd. }
  apply H. constructor.
Qed.

Lemma first_values_total qs :
  Forall (fun kv => snd kv <> []) qs -> exists d, first_values qs = Some d.
Proof.
  induction qs as [|[k vs] qs IH]; simpl; intros H; [eexists; reflexivity|].
  inversion H as [|? ? Hk Hd]; subst. destruct (IH Hd) as [d ->].
  simpl in Hk. destruct vs; [congruence|]. eexists; reflexivity.
Qed.

(** [with_page_param] never raises. *)
Lemma with_page_param_total url page_num :
  exists r, with_page_param L url page_num = Some r.
Proof.
  unfold with_page_param.
  destruct (first_values_total
              (dict_set (parse_qs L (query (urlparse url))) "page" [str page_num]))
    as [d ->]; [|eexists; reflexivity].
  apply dict_set_nonempty; [discriminate|apply parse_qs_nonempty].
Qed.

Lemma page_url_eq p : with_page_param L start_url p = Some (page_url L start_url p).
Proof.
  unfold page_url. destruct (with_page_param_total start_url p) as [r ->].
  reflexivity.
Qed.

Hypothesis retries_positive : 1 <= MAX_RETRIES cls.






End RunFacts.

Section RunTheorems.

#[local] Open Scope list_scope.

Variables (L : UrlLib) (env : Env) (cls : Config) (start_url : string).












End RunTheorems.

Section RunExamples.

#[local] Open Scope list_scope.




End RunExamples.

(** ** Worked examples *)

Example clean_price_usd : clean_price (Some "US $1,234.50") = Some "1.234.50".
Proof. reflexivity. Qed.

Example clean_price_words : clean_price (Some "Free") = None.
Proof. reflexivity. Qed.

Example extract_sold_count_thousand : extract_sold_count (Some "1,000+ sold") = "1000".
Proof. reflexivity. Qed.

Example with_page_param_appends :
  with_page_param plain "https://www.aliexpress.com/w/a.html?q=a%26b" 12
  = Some "https://www.aliexpress.com/w/a.html?q=a%26b&page=12".
Proof. reflexivity. Qed.

Example retry_delay_default_first : (calculate_retry_delay defaults 1 0 == 2)%Q.
Proof. reflexivity. Qed.

Example semaphore_of_size_zero :
  fst (scrape_pages plain env_page_1_only defaults start_1 2 0 None [2; 1]) = Blocked.
Proof. reflexivity. Qed.

(** * Further properties of the code *)

(** ** scraper/utils.py *)

Section MoreUtils.

Lemma clean_price_some t : clean_price (Some t) = price_spec t.
Proof.
  unfold clean_price, price_spec.
  destruct (String.eqb t "") eqn:Et.
  - apply eqb_empty in Et. subst t. reflexivity.
  - rewrite (strip_id _ (price_chars_not_space t)).
    unfold sub_non_price.
    rewrite (sfilter_ext _ (fun c => is_digit c || is_comma c || is_dot c));
      [|intros c; destruct (is_digit c), (is_dot c), (is_comma c); reflexivity].
    destruct (sfilter _ t) eqn:Ek; reflexivity.
Qed.

Lemma sforall_weaken (p q : ascii -> bool) s :
  (forall c, p c = true -> q c = true) ->
  sforall p s = true -> sforall q s = true.
Proof.
  intros Hpq. induction s as [|c r IH]; simpl; [auto|].
  intros [Hc Hr]%andb_prop. rewrite (Hpq _ Hc). auto.
Qed.

Lemma sfilter_id p s : sforall p s = true -> sfilter p s = s.
Proof.
  induction s as [|c r IH]; simpl; [reflexivity|].
  intros [-> Hr]%andb_prop. rewrite (IH Hr). reflexivity.
Qed.

Lemma smap_id (p : ascii -> bool) f s :
  (forall c, p c = true -> f c = c) -> sforall p s = true -> smap f s = s.
Proof.
  intros Hf. induction s as [|c r IH]; simpl; [reflexivity|].
  intros [Hc Hr]%andb_prop. rewrite (Hf _ Hc), (IH Hr). reflexivity.
Qed.

Lemma comma_not_price c : is_price_char c = true -> Ascii.eqb c "," = false.
Proof.
  unfold is_price_char. destruct (Ascii.eqb c ",") eqn:E; [|reflexivity].
  apply Ascii.eqb_eq in E. subst c. discriminate.
Qed.

Lemma price_spec_chars t p :
  price_spec t = Some p -> p <> "" /\ sforall is_price_char p = true.
Proof.
  unfold price_spec.
  destruct (sfilter _ t) as [|c r] eqn:E; [discriminate|].
  intros [= <-]. split; [discriminate|].
  rewrite <- E. unfold replace_char.
  eapply sforall_smap; [|apply sfilter_sforall].
  intros x Hx. simpl in Hx. unfold is_price_char.
  destruct (Ascii.eqb x ",") eqn:Ec; [reflexivity|].
  unfold is_comma in Hx. rewrite Ec in Hx.
  destruct (is_digit x), (is_dot x); auto.
Qed.

Lemma clean_price_alphabet_helper (text : option string) (p : string) :
  clean_price text = Some p ->
  p <> "" /\ sforall is_price_char p = true.
Proof.
  destruct text as [t|]; [|discriminate].
  rewrite clean_price_some. apply price_spec_chars.
Qed.

(** X1: a price that [clean_price] returns is never empty and holds digits
    and dots only: no comma, currency sign or space is left. *)
Theorem clean_price_alphabet (text : option string) (p : string) :
  clean_price text = Some p ->
  p <> "" /\ sforall is_price_char p = true.
Proof.
  destruct text as [t|]; [|discriminate].
  rewrite clean_price_some. apply price_spec_chars.
Qed.

Lemma clean_price_alphabet_witness :
  clean_price (Some "US $1,234.50") = Some "1.234.50"
  /\ sforall is_price_char "1.234.50" = true.
Proof.
  assert (H : clean_price (Some "US $1,234.50") = Some "1.234.50") by reflexivity.
  split; [exact H|].
  exact (proj2 (clean_price_alphabet (Some "US $1,234.50") "1.234.50" H)).
Defined.

(** X2: [clean_price] is idempotent: cleaning a cleaned price changes
    nothing. *)
Theorem clean_price_idempotent (text : option string) :
  clean_price (clean_price text) = clean_price text.
Proof.
  destruct (clean_price text) as [p|] eqn:E; [|reflexivity].
  destruct text as [t|]; [|discriminate].
  rewrite clean_price_some in E.
  destruct (price_spec_chars t p E) as [Hne Hchars].
  rewrite clean_price_some. unfold price_spec.
  rewrite (sfilter_id _ p).
  2:{ eapply sforall_weaken; [|exact Hchars].
      intros c Hc. unfold is_price_char in Hc.
      destruct (is_digit c), (is_dot c), (is_comma c); auto; discriminate. }
  destruct p as [|c r]; [congruence|].
  f_equal. unfold replace_char. apply (smap_id is_price_char); [|exact Hchars].
  intros x Hx. rewrite (comma_not_price x Hx). reflexivity.
Qed.

Lemma span_all p s : sforall p s = true -> span p s = (s, "").
Proof.
  induction s as [|c r IH]; simpl; [reflexivity|].
  intros [-> Hr]%andb_prop. rewrite (IH Hr). reflexivity.
Qed.

Lemma sold_count_digits text :
  extract_sold_count text <> ""
  /\ sforall is_digit (extract_sold_count text) = true.
Proof.
  unfold extract_sold_count. rewrite search_sold_drop.
  assert (D : forall s, match drop_until is_digit s with
                        | EmptyString => True
                        | String c _ => is_digit c = true
                        end).
  { induction s as [|c r IH]; simpl; [exact I|].
    destruct (is_digit c) eqn:Ec; [exact Ec|exact IH]. }
  specialize (D (default "" text)).
  destruct (drop_until is_digit (default "" text)) as [|c r]; [split; [discriminate|reflexivity]|].
  split.
  - unfold remove_char. simpl. rewrite D. simpl. destruct (span _ r). simpl.
    assert (Ascii.eqb c "," = false) as ->.
    { apply Ascii.eqb_neq. intros ->. discriminate. }
    discriminate.
  - apply remove_comma_digits, span_sforall.
Qed.

Lemma append_empty_r (s : string) : s ++ "" = s.
Proof.
  induction s as [|c r IH]; [reflexivity|].
  change (String c (r ++ "") = String c r). f_equal. exact IH.
Qed.

Lemma sold_count_of_digits s :
  s <> "" -> sforall is_digit s = true -> extract_sold_count (Some s) = s.
Proof.
  intros Hne Hd. unfold extract_sold_count. simpl.
  destruct s as [|c r]; [congruence|].
  pose proof Hd as Hd'. simpl in Hd'. apply andb_prop in Hd' as [Hc Hr].
  cbn [search_sold]. rewrite Hc. rewrite (span_all _ _ Hd).
  cbn [span]. rewrite append_empty_r.
  unfold remove_char. apply sfilter_id.
  eapply sforall_weaken; [|exact Hd].
  intros x Hx. apply negb_true_iff, Ascii.eqb_neq. intros ->. discriminate.
Qed.

(** X3: [extract_sold_count] is idempotent: the count extracted from an
    extracted count is that count. *)
Theorem extract_sold_count_idempotent (text : option string) :
  extract_sold_count (Some (extract_sold_count text)) = extract_sold_count text.
Proof.
  destruct (sold_count_digits text) as [Hne Hd].
  apply sold_count_of_digits; assumption.
Qed.

(** X4: text in front of the first digit does not change the count. *)
Theorem extract_sold_count_skips_prefix (pre s : string) :
  sexists is_digit pre = false ->
  extract_sold_count (Some (pre ++ s)) = extract_sold_count (Some s).
Proof.
  intros Hpre. unfold extract_sold_count. rewrite !search_sold_drop. simpl.
  assert (E : drop_until is_digit (pre ++ s) = drop_until is_digit s).
  { induction pre as [|c r IH]; simpl in *; [reflexivity|].
    apply orb_false_iff in Hpre as [-> Hr]. auto. }
  rewrite E. reflexivity.
Qed.

Lemma extract_sold_count_skips_prefix_witness :
  sexists is_digit "sold: " = false
  /\ extract_sold_count (Some ("sold: " ++ "1,250+")) = extract_sold_count (Some "1,250+").
Proof.
  assert (H : sexists is_digit "sold: " = false) by reflexivity.
  split; [exact H|].
  exact (extract_sold_count_skips_prefix "sold: " "1,250+" H).
Defined.

End MoreUtils.

(** ** scraper/brightdata.py *)

Section MoreFetch.

#[local] Open Scope list_scope.
#[local] Open Scope nat_scope.

Lemma rstrip_cons c r :
  rstrip (String c r)
  = match rstrip r with
    | EmptyString => if is_space c then EmptyString else String c EmptyString
    | r' => String c r'
    end.
Proof. reflexivity. Qed.

Lemma rstrip_idempotent s : rstrip (rstrip s) = rstrip s.
Proof.
  induction s as [|c r IH]; [reflexivity|].
  rewrite rstrip_cons. destruct (rstrip r) as [|a b] eqn:E.
  - destruct (is_space c) eqn:Ec; [reflexivity|].
    rewrite rstrip_cons. simpl. rewrite Ec. reflexivity.
  - rewrite rstrip_cons, IH. reflexivity.
Qed.

Lemma lstrip_head s :
  match lstrip s with
  | EmptyString => True
  | String c _ => is_space c = false
  end.
Proof.
  induction s as [|c r IH]; simpl; [exact I|].
  destruct (is_space c) eqn:E; [exact IH|exact E].
Qed.

Lemma rstrip_head c r :
  is_space c = false -> exists r', rstrip (String c r) = String c r'.
Proof.
  intros Hc. rewrite rstrip_cons. destruct (rstrip r); [rewrite Hc|]; eexists; reflexivity.
Qed.

Lemma strip_idempotent s : strip (strip s) = strip s.
Proof.
  unfold strip. pose proof (lstrip_head s) as H.
  destruct (lstrip s) as [|c r]; [reflexivity|].
  destruct (rstrip_head c r H) as [r' E]. rewrite E.
  cbn [lstrip]. rewrite H, <- E. apply rstrip_idempotent.
Qed.

Variables (env : Env) (url : string).

(** What the request loop returns, by the responses it meets. *)
Lemma fetch_loop_spec fuel k :
  match fetch_loop env url fuel k with
  | (Some html, k', posts) =>
      exists j, j < fuel /\ k' = k + j + 1
                /\ acceptable (post env url (k + j)) = true
                /\ html = document (post env url (k + j))
                /\ (forall i, i < j -> acceptable (post env url (k + i)) = false)
                /\ posts = repeat (EvPost url) (j + 1)
  | (None, k', posts) =>
      k' = k + fuel
      /\ (forall i, i < fuel -> acceptable (post env url (k + i)) = false)
      /\ posts = repeat (EvPost url) fuel
  end.
Proof.
  revert k. induction fuel as [|fuel IH]; intros k.
  - simpl. split; [lia|]. split; [intros i Hi; lia|reflexivity].
  - cbn [fetch_loop].
    assert (Hretry : acceptable (post env url k) = false ->
      match (let '(r, k', log) := fetch_loop env url fuel (S k) in
             (r, k', EvPost url :: log)) with
      | (Some html, k', posts) =>
          exists j, j < S fuel /\ k' = k + j + 1
                    /\ acceptable (post env url (k + j)) = true
                    /\ html = document (post env url (k + j))
                    /\ (forall i, i < j -> acceptable (post env url (k + i)) = false)
                    /\ posts = repeat (EvPost url) (j + 1)
      | (None, k', posts) =>
          k' = k + S fuel
          /\ (forall i, i < S fuel -> acceptable (post env url (k + i)) = false)
          /\ posts = repeat (EvPost url) (S fuel)
      end).
    { intros Hk. specialize (IH (S k)).
      destruct (fetch_loop env url fuel (S k)) as [[[html|] k'] posts].
      - destruct IH as (j & Hj & -> & Hacc & Hdoc & Hbefore & ->).
        exists (S j). replace (k + S j) with (S k + j) by lia.
        split; [lia|]. split; [lia|]. split; [exact Hacc|]. split; [exact Hdoc|].
        split; [|reflexivity].
        intros [|i] Hi; [rewrite Nat.add_0_r; exact Hk|].
        replace (k + S i) with (S k + i) by lia. apply Hbefore. lia.
      - destruct IH as (-> & Hall & ->). split; [lia|]. split; [|reflexivity].
        intros [|i] Hi; [rewrite Nat.add_0_r; exact Hk|].
        replace (k + S i) with (S k + i) by lia. apply Hall. lia. }
    destruct (post env url k) as [|status text] eqn:Ep; [apply Hretry; reflexivity|].
    destruct (status =? 200)%Z eqn:Es; [|apply Hretry; simpl; rewrite Es; reflexivity].
    destruct (accepts (strip text)) eqn:Ea;
      [|apply Hretry; simpl; rewrite Es, Ea; reflexivity].
    exists 0. rewrite Nat.add_0_r, Ep. simpl. rewrite Es, Ea.
    split; [lia|]. split; [lia|]. split; [reflexivity|]. split; [reflexivity|].
    split; [intros i Hi; lia|reflexivity].
Qed.

(** X5: a document that [fetch_via_brightdata] returns is the stripped text
    of the first response with status 200 whose stripped text is not empty
    and contains "<html" in some letter case; it has no white space around
    it; every earlier response was refused; and one request was sent per
    response, at most [MAX_RETRIES] in all. *)
Theorem fetch_returns_first_accepted (cls : Config) (k : nat)
    (html : string) (k' : nat) (posts : list event) :
  fetch_via_brightdata env cls url k = (Some html, k', posts) ->
  accepts html = true /\ strip html = html
  /\ k < k' <= k + Z.to_nat (MAX_RETRIES cls)
  /\ acceptable (post env url (k' - 1)) = true
  /\ html = document (post env url (k' - 1))
  /\ (forall i, k <= i < k' - 1 -> acceptable (post env url i) = false)
  /\ posts = repeat (EvPost url) (k' - k).
Proof.
  unfold fetch_via_brightdata. intros H.
  pose proof (fetch_loop_spec (Z.to_nat (MAX_RETRIES cls)) k) as S.
  rewrite H in S. destruct S as (j & Hj & -> & Hacc & Hdoc & Hbefore & ->).
  replace (k + j + 1 - 1) with (k + j) by lia.
  replace (k + j + 1 - k) with (j + 1) by lia.
  assert (Ha : accepts html = true /\ strip html = html).
  { subst html. destruct (post env url (k + j)) as [|status text]; [discriminate|].
    simpl in *. apply andb_prop in Hacc as [_ Hacc].
    split; [exact Hacc|apply strip_idempotent]. }
  destruct Ha as [Ha Hs].
  split; [exact Ha|]. split; [exact Hs|]. split; [lia|].
  split; [exact Hacc|]. split; [exact Hdoc|]. split; [|reflexivity].
  intros i Hi. replace i with (k + (i - k)) by lia. apply Hbefore. lia.
Qed.


End MoreFetch.

Section MoreFetchExamples.

#[local] Open Scope nat_scope.

Lemma fetch_returns_first_accepted_witness :
  fetch_via_brightdata env_capitals defaults page_1 0
  = (Some capital_document, 1, [EvPost page_1])
  /\ accepts capital_document = true
  /\ strip capital_document = capital_document.
Proof.
  assert (H : fetch_via_brightdata env_capitals defaults page_1 0
              = (Some capital_document, 1, [EvPost page_1])) by reflexivity.
  split; [exact H|].
  destruct (fetch_returns_first_accepted env_capitals page_1 defaults 0 _ _ _ H)
    as (Ha & Hs & _).
  split; [exact Ha|exact Hs].
Defined.


End MoreFetchExamples.

(** ** Fetching one page, continued *)

Section MorePage.

#[local] Open Scope list_scope.
#[local] Open Scope nat_scope.

Variables (env : Env) (cls : Config) (url : string).





End MorePage.

Section MorePageExamples.

#[local] Open Scope nat_scope.



End MorePageExamples.

(** ** Normalised records *)

Section MoreRecords.

#[local] Open Scope list_scope.

Lemma normalize_shape (c : RawCard) :
  (forall k, k <> "price"%string -> k <> "amount_sold_count"%string ->
             normalize c !! k = card_dict c !! k)
  /\ url_of (normalize c) = of_opt (product_url c)
  /\ get (normalize c) "amount_sold" = PyStr (amount_sold c)
  /\ (get (normalize c) "price" = PyNone
      \/ exists p, get (normalize c) "price" = PyStr p
                   /\ p <> ""%string /\ sforall is_price_char p = true)
  /\ (exists n, get (normalize c) "amount_sold_count" = PyStr n
                /\ n <> ""%string /\ sforall is_digit n = true).
Proof.
  split; [|split; [|split; [|split]]].
  - intros k Hp Hs. unfold normalize.
    rewrite lookup_insert_ne by congruence.
    rewrite lookup_insert_ne by congruence. reflexivity.
  - reflexivity.
  - reflexivity.
  - unfold normalize, get.
    rewrite lookup_insert_ne by discriminate. rewrite lookup_insert_eq. simpl.
    destruct (clean_price (price c)) as [p|] eqn:E; [right|left; reflexivity].
    exists p. split; [reflexivity|]. eapply clean_price_alphabet_helper, E.
  - unfold normalize, get. rewrite lookup_insert_eq. simpl.
    eexists. split; [reflexivity|]. apply sold_count_digits.
Qed.

(** X9: [parse_products_from_page] returns one record per card, in order.
    In each record only ["price"] and ["amount_sold_count"] differ from what
    the page script gave: the url and the raw sold label are kept, the price
    is [None] or a non-empty string of digits and dots, and the count is a
    non-empty string of digits. *)
Theorem parse_products_from_page_shape (raw_products : list RawCard) :
  length (parse_products_from_page raw_products) = length raw_products
  /\ Forall2
       (fun c it =>
          (forall k, k <> "price"%string -> k <> "amount_sold_count"%string ->
                     it !! k = card_dict c !! k)
          /\ url_of it = of_opt (product_url c)
          /\ get it "amount_sold" = PyStr (amount_sold c)
          /\ (get it "price" = PyNone
              \/ exists p, get it "price" = PyStr p
                           /\ p <> ""%string /\ sforall is_price_char p = true)
          /\ (exists n, get it "amount_sold_count" = PyStr n
                        /\ n <> ""%string /\ sforall is_digit n = true))
       raw_products (parse_products_from_page raw_products).
Proof.
  unfold parse_products_from_page. split; [apply length_map|].
  induction raw_products as [|c l IH]; simpl; constructor; [|exact IH].
  apply normalize_shape.
Qed.

End MoreRecords.

(** ** with_page_param, continued *)

Section MoreUrls.

#[local] Open Scope list_scope.

Lemma str_injective n m : str n = str m -> n = m.
Proof.
  unfold str. intros H. apply DecimalZ.to_int_inj.
  assert (Hn : forall z, NilZero.int_of_string (NilZero.string_of_int (Z.to_int z))
                         = Some (Z.to_int z)).
  { intros z. apply NilZero.isi; destruct z; simpl; try discriminate;
      intros [= E]; exact (DecimalPos.Unsigned.to_uint_nonnil _ E). }
  pose proof (Hn n) as En. rewrite H, Hn in En. congruence.
Qed.

Lemma dict_append_fresh (d : qdict) name value :
  ~ In name (map fst d) -> dict_append d name value = d ++ [(name, [value])].
Proof.
  induction d as [|[k vs] d IH]; simpl; intros H; [reflexivity|].
  destruct (String.eqb k name) eqn:E.
  - apply String.eqb_eq in E. tauto.
  - rewrite IH by tauto. reflexivity.
Qed.

Lemma fold_append_unique (d : list (string * string)) (d0 : qdict) :
  NoDup (map fst d0 ++ map fst d) ->
  fold_left (fun acc nv => dict_append acc (fst nv) (snd nv)) d d0
  = d0 ++ map (fun kv => (fst kv, [snd kv])) d.
Proof.
  revert d0. induction d as [|[k v] d IH]; intros d0 Hnd; simpl.
  - rewrite app_nil_r. reflexivity.
  - rewrite dict_append_fresh.
    + rewrite IH.
      * rewrite <- app_assoc. reflexivity.
      * rewrite map_app. simpl. rewrite <- app_assoc. exact Hnd.
    + simpl in Hnd. apply NoDup_app in Hnd as (_ & Hdisj & _).
      intros Hin. apply (Hdisj k); [apply list_elem_of_In, Hin|left].
Qed.

Lemma dict_set_twice (d : qdict) name a b :
  dict_set (dict_set d name a) name b = dict_set d name b.
Proof.
  induction d as [|[k vs] d IH]; simpl.
  - rewrite String.eqb_refl. reflexivity.
  - destruct (String.eqb k name) eqn:E; simpl; rewrite E; [reflexivity|].
    rewrite IH. reflexivity.
Qed.

Lemma dict_set_firsts (d : qdict) name v :
  map (fun kv => (fst kv, hd ""%string (snd kv)))
      (dict_set (map (fun kv => (fst kv, [snd kv]))
                     (map (fun kv => (fst kv, hd ""%string (snd kv))) d))
                name [v])
  = map (fun kv => (fst kv, hd ""%string (snd kv))) (dict_set d name [v]).
Proof.
  induction d as [|[k vs] d IH]; simpl; [reflexivity|].
  destruct (String.eqb k name); simpl; [|rewrite IH; reflexivity].
  f_equal. rewrite !map_map. reflexivity.
Qed.

Context (L : UrlLib) `{!UrlLibLaws L}.

Lemma urlparse_urlunparse_all h q f :
  sexists is_head_delim h = false ->
  q <> ""%string ->
  sexists (fun c => Ascii.eqb c "#") q = false ->
  urlparse (urlunparse L {| head := h; query := q; fragment := f |})
  = {| head := unparse_head L h; query := q; fragment := f |}.
Proof.
  intros Hh Hq Hqh.
  pose proof (head_no_delim h Hh) as Hu.
  set (u := unparse_head L h) in *.
  assert (Hu1 : sexists (fun c => Ascii.eqb c "?") u = false).
  { eapply sexists_weaken; [|exact Hu]. intros c Hc. unfold is_head_delim.
    rewrite Hc. reflexivity. }
  assert (Hu2 : sexists (fun c => Ascii.eqb c "#") u = false).
  { eapply sexists_weaken; [|exact Hu]. intros c Hc. unfold is_head_delim.
    rewrite Hc. apply orb_true_r. }
  assert (Huq : sexists (fun c => Ascii.eqb c "#") (u ++ "?" ++ q)%string = false).
  { rewrite !sexists_app. simpl. rewrite Hu2, Hqh. reflexivity. }
  unfold urlunparse, urlparse. cbn [head query fragment]. fold u.
  assert (Eq : String.eqb q "" = false) by (apply String.eqb_neq, Hq).
  rewrite Eq.
  destruct (String.eqb f "") eqn:Ef.
  - apply String.eqb_eq in Ef. subst f.
    rewrite (partition_absent "#" _ Huq).
    change (u ++ "?" ++ q)%string with (u ++ String "?" q)%string.
    rewrite (partition_app "?" u q Hu1). reflexivity.
  - change ((u ++ "?" ++ q) ++ "#" ++ f)%string
      with ((u ++ "?" ++ q) ++ String "#" f)%string.
    rewrite (partition_app "#" _ f Huq).
    change (u ++ "?" ++ q)%string with (u ++ String "?" q)%string.
    rewrite (partition_app "?" u q Hu1). reflexivity.
Qed.

Lemma page_params_facts url page_num :
  well_formed (dict_set (parse_qs L (query (urlparse url))) "page" [str page_num])
  /\ NoDup (map fst (page_params L url page_num))
  /\ Forall (fun kv => snd kv <> ""%string) (page_params L url page_num)
  /\ page_params L url page_num <> []
  /\ dict_get (page_params L url page_num) "page" = Some (str page_num).
Proof.
  assert (Hwf : well_formed (dict_set (parse_qs L (query (urlparse url))) "page"
                               [str page_num])).
  { apply dict_set_wf; [discriminate| |apply parse_qs_wf; assumption].
    repeat constructor. apply str_nonempty. }
  split; [exact Hwf|]. unfold page_params. split; [|split; [|split]].
  - rewrite map_map. simpl. apply Hwf.
  - apply List.Forall_forall. intros x [kv [<- Hin]]%in_map_iff. simpl.
    destruct Hwf as [_ Hall]. rewrite List.Forall_forall in Hall.
    destruct (Hall kv Hin) as [Hne Hvs]. destruct (snd kv); [congruence|].
    inversion Hvs; assumption.
  - destruct (parse_qs L (query (urlparse url))) as [|[k vs] o]; simpl; [discriminate|].
    destruct (String.eqb k "page"); discriminate.
  - rewrite dict_get_first, dict_get_set. reflexivity.
Qed.

(** The url that [with_page_param] returns, and its parts. *)
Lemma with_page_param_parts url page_num :
  with_page_param L url page_num
  = Some (urlunparse L {| head := head (urlparse url);
                          query := urlencode L (page_params L url page_num);
                          fragment := fragment (urlparse url) |})
  /\ urlparse (urlunparse L {| head := head (urlparse url);
                               query := urlencode L (page_params L url page_num);
                               fragment := fragment (urlparse url) |})
     = {| head := unparse_head L (head (urlparse url));
          query := urlencode L (page_params L url page_num);
          fragment := fragment (urlparse url) |}.
Proof.
  destruct (page_params_facts url page_num) as (Hwf & _ & _ & Hne & _).
  split.
  - unfold with_page_param. rewrite (first_values_map _ Hwf). reflexivity.
  - apply urlparse_urlunparse_all.
    + apply head_clean.
    + apply urlencode_nonempty; assumption.
    + apply urlencode_clean; try reflexivity; [assumption|].
      intros c ->%Ascii.eqb_eq. reflexivity.
Qed.


(** X11: different page numbers give different urls. *)
Theorem with_page_param_injective (url : string) (n m : Z) :
  n <> m -> with_page_param L url n <> with_page_param L url m.
Proof.
  intros Hnm E.
  destruct (with_page_param_parts url n) as [En Pn].
  destruct (with_page_param_parts url m) as [Em Pm].
  rewrite En, Em in E. injection E as E.
  rewrite E in Pn. rewrite Pn in Pm.
  apply (f_equal query) in Pm. cbn [query] in Pm.
  apply (f_equal (parse_qsl L)) in Pm.
  rewrite !parse_qsl_urlencode in Pm
    by (try assumption; apply page_params_facts).
  apply (f_equal (fun d => dict_get d "page"%string)) in Pm.
  destruct (page_params_facts url n) as (_ & _ & _ & _ & Gn).
  destruct (page_params_facts url m) as (_ & _ & _ & _ & Gm).
  rewrite Gn, Gm in Pm. injection Pm as Pm. apply Hnm, str_injective, Pm.
Qed.

(** X12: setting the page twice is setting it once: the url obtained for
    page [m] from the url of page [n] has the query and the fragment of the
    url obtained for page [m] directly. *)
Theorem with_page_param_twice (url : string) (n m : Z) (r1 r2 r : string) :
  with_page_param L url n = Some r1 ->
  with_page_param L r1 m = Some r2 ->
  with_page_param L url m = Some r ->
  query (urlparse r2) = query (urlparse r)
  /\ fragment (urlparse r2) = fragment (urlparse r).
Proof.
  intros H1 H2 H.
  destruct (with_page_param_parts url n) as [E1 P1]. rewrite E1 in H1.
  injection H1 as <-.
  destruct (with_page_param_parts url m) as [E P]. rewrite E in H.
  injection H as <-.
  set (r1 := urlunparse L {| head := head (urlparse url);
                             query := urlencode L (page_params L url n);
                             fragment := fragment (urlparse url) |}) in *.
  destruct (with_page_param_parts r1 m) as [E2 P2]. rewrite E2 in H2.
  injection H2 as <-. rewrite P2, P. cbn [query fragment].
  rewrite P1. cbn [query fragment]. split; [|reflexivity].
  f_equal. unfold page_params at 1. rewrite P1. cbn [query].
  unfold parse_qs. destruct (page_params_facts url n) as (_ & Hnd & Hvals & _ & _).
  rewrite (parse_qsl_urlencode L _ Hvals).
  rewrite (fold_append_unique _ []) by exact Hnd. cbn [app].
  unfold page_params at 1. rewrite dict_set_firsts, dict_set_twice. reflexivity.
Qed.

End MoreUrls.

Section MoreUrlExamples.


Lemma with_page_param_injective_witness :
  1 <> 2
  /\ with_page_param plain start_1 1 <> with_page_param plain start_1 2.
Proof.
  assert (H : 1 <> 2) by lia.
  split; [exact H|].
  exact (with_page_param_injective plain start_1 1 2 H).
Defined.

Lemma with_page_param_twice_witness :
  with_page_param plain "https://www.aliexpress.com/w/a.html?q=x&q=y#top" 1
  = Some "https://www.aliexpress.com/w/a.html?q=x&page=1#top"
  /\ with_page_param plain "https://www.aliexpress.com/w/a.html?q=x&page=1#top" 2
     = Some "https://www.aliexpress.com/w/a.html?q=x&page=2#top"
  /\ with_page_param plain "https://www.aliexpress.com/w/a.html?q=x&q=y#top" 2
     = Some "https://www.aliexpress.com/w/a.html?q=x&page=2#top"
  /\ query (urlparse "https://www.aliexpress.com/w/a.html?q=x&page=2#top")
     = query (urlparse "https://www.aliexpress.com/w/a.html?q=x&page=2#top").
Proof.
  assert (H1 : with_page_param plain "https://www.aliexpress.com/w/a.html?q=x&q=y#top" 1
               = Some "https://www.aliexpress.com/w/a.html?q=x&page=1#top") by reflexivity.
  assert (H2 : with_page_param plain "https://www.aliexpress.com/w/a.html?q=x&page=1#top" 2
               = Some "https://www.aliexpress.com/w/a.html?q=x&page=2#top") by reflexivity.
  assert (H3 : with_page_param plain "https://www.aliexpress.com/w/a.html?q=x&q=y#top" 2
               = Some "https://www.aliexpress.com/w/a.html?q=x&page=2#top") by reflexivity.
  split; [exact H1|]. split; [exact H2|]. split; [exact H3|].
  exact (proj1 (with_page_param_twice plain _ 1 2 _ _ _ H1 H2 H3)).
Defined.

End MoreUrlExamples.

(** ** Admission and the index, continued *)

Section MoreAdmission.

#[local] Open Scope list_scope.

Lemma elem_of_truthy_urls (x : pyval) (items : list item) :
  x ∈ truthy_urls items
  <-> exists it, In it items /\ truthy (url_of it) = true /\ url_of it = x.
Proof.
  unfold truthy_urls. rewrite list_elem_of_In, in_map_iff. split.
  - intros (it & <- & [Hin Ht]%filter_In). eauto.
  - intros (it & Hin & Ht & <-). exists it. split; [reflexivity|].
    apply filter_In. auto.
Qed.

(** The index after a call, whatever was in it before. *)
Lemma admission_index seen products :
  snd (admission seen products) = seen ∪ list_to_set (truthy_urls products).
Proof.
  rewrite admission_marks. apply set_eq. intros x.
  rewrite !elem_of_union, !elem_of_list_to_set, elem_of_truthy_urls.
  rewrite list_elem_of_In, in_map_iff. split.
  - intros [Hs|(it & <- & Hit)]; [left; exact Hs|right].
    apply admission_fresh in Hit as (Hin & Ht & _). eauto.
  - intros [Hs|(it & Hin & Ht & <-)]; [left; exact Hs|].
    destruct (decide (url_of it ∈ seen)) as [Hs|Hs]; [left; exact Hs|right].
    exists it. split; [reflexivity|]. unfold admission. cbn [fst].
    apply filter_In. split; [exact Hin|]. unfold is_new.
    apply andb_true_intro. split; [exact Ht|]. apply bool_decide_eq_true. exact Hs.
Qed.

Lemma admission_nothing seen products :
  list_to_set (truthy_urls products) ⊆ seen ->
  admission seen products = ([], seen).
Proof.
  intros Hsub. unfold admission.
  assert (E : List.filter (is_new seen) products = []).
  { induction products as [|it l IH]; [reflexivity|]. simpl.
    assert (Hnew : is_new seen it = false).
    { unfold is_new. destruct (truthy (get it "product_url")) eqn:Ht; [|reflexivity].
      simpl. apply bool_decide_eq_false. intros Hn. apply Hn, Hsub.
      apply elem_of_list_to_set, elem_of_truthy_urls. exists it.
      split; [left; reflexivity|]. split; [exact Ht|reflexivity]. }
    rewrite Hnew. apply IH. intros x Hx. apply Hsub.
    apply elem_of_list_to_set in Hx. apply elem_of_truthy_urls in Hx as (it' & Hin & Ht & <-).
    apply elem_of_list_to_set, elem_of_truthy_urls. exists it'.
    split; [right; exact Hin|]. auto. }
  rewrite E. reflexivity.
Qed.

(** X13: a record is admitted only if it is a candidate with a non-empty
    url that the index does not hold, and the url of an admitted record is
    refused by every later call. *)
Theorem admission_never_twice (seen : gset pyval) (products : list item) (it : item) :
  In it (fst (admission seen products)) ->
  In it products /\ truthy (url_of it) = true /\ (url_of it ∉ seen)
  /\ forall products' it',
       In it' (fst (admission (snd (admission seen products)) products')) ->
       url_of it' <> url_of it.
Proof.
  intros Hin. destruct (admission_fresh _ _ _ Hin) as (H1 & H2 & H3).
  split; [exact H1|]. split; [exact H2|]. split; [exact H3|].
  intros products' it' Hin'. eapply admission_not_again; eassumption.
Qed.

(** X14: after a call the index is the index before it together with every
    non-empty url among the candidates, admitted or not; the index never
    loses a url; the admitted records are candidates in their order; and
    the same candidates offered again are all refused. *)
Theorem admission_grows_index (seen : gset pyval) (products : list item) :
  snd (admission seen products) = seen ∪ list_to_set (truthy_urls products)
  /\ seen ⊆ snd (admission seen products)
  /\ sublist (fst (admission seen products)) products
  /\ admission (snd (admission seen products)) products
     = ([], snd (admission seen products)).
Proof.
  split; [apply admission_index|]. split; [|split].
  - rewrite admission_index. apply union_subseteq_l.
  - unfold admission. cbn [fst]. clear.
    induction products as [|it l IH]; simpl; [constructor|].
    destruct (is_new seen it); [apply sublist_skip|apply sublist_cons]; exact IH.
  - apply admission_nothing. rewrite admission_index. apply union_subseteq_r.
Qed.

Lemma entry_urls_app l1 l2 : entry_urls (l1 ++ l2) = entry_urls l1 ++ entry_urls l2.
Proof. unfold entry_urls. apply omap_app. Qed.

Lemma lines_of_some (l : list sink_line) : lines_of (Some l) = l.
Proof. reflexivity. Qed.

Lemma load_is_set (file : option (list sink_line)) :
  load_seen_urls file = list_to_set (entry_urls (lines_of file)).
Proof.
  destruct file as [lines|]; [|reflexivity].
  rewrite lines_of_some. unfold load_seen_urls. rewrite load_fold.
  apply set_eq. intros x. rewrite elem_of_union. split.
  - intros [H|H]; [exfalso; revert H; apply not_elem_of_empty|exact H].
  - intros H. right. exact H.
Qed.



(** X15: loading takes the union over the lines: the index of a file made
    of two parts is the union of the indexes of the parts, the order of the
    lines does not matter, and a file that does not exist gives the empty
    index. *)
Theorem load_seen_urls_union (l1 l2 : list sink_line) :
  load_seen_urls (Some (l1 ++ l2))
  = load_seen_urls (Some l1) ∪ load_seen_urls (Some l2)
  /\ (forall l, l ≡ₚ l1 -> load_seen_urls (Some l) = load_seen_urls (Some l1))
  /\ load_seen_urls None = ∅.
Proof.
  split; [|split; [|reflexivity]].
  - rewrite !load_is_set, !lines_of_some.
    rewrite entry_urls_app. apply set_eq. intros x.
    rewrite elem_of_union, !elem_of_list_to_set, elem_of_app. reflexivity.
  - intros l Hl. rewrite !load_is_set, !lines_of_some.
    apply list_to_set_perm_L. unfold entry_urls. rewrite Hl. reflexivity.
Qed.




End MoreAdmission.

Section MoreAdmissionExamples.

#[local] Open Scope list_scope.

Lemma admission_never_twice_witness :
  In record_1 (fst (admission ∅ [record_1]))
  /\ truthy (url_of record_1) = true.
Proof.
  assert (H : In record_1 (fst (admission ∅ [record_1]))).
  { unfold admission. cbn [fst List.filter].
    assert (Hn : is_new ∅ record_1 = true).
    { unfold is_new. apply andb_true_intro. split; [reflexivity|].
      apply bool_decide_eq_true. apply not_elem_of_empty. }
    rewrite Hn. left. reflexivity. }
  split; [exact H|].
  destruct (admission_never_twice ∅ [record_1] record_1 H) as (_ & Ht & _).
  exact Ht.
Defined.

End MoreAdmissionExamples.

(** ** The run, continued *)

Section MoreRun.

#[local] Open Scope list_scope.

Variables (L : UrlLib) (env : Env) (cls : Config) (start_url : string).

Let W := worker L env cls start_url.
Let products_at (p : Z) := page_products L env cls start_url p.

Lemma scrape_without_attempts url retries :
  retries <= 0 -> scrape_single_page env cls url retries = (None, []).
Proof.
  intros H. unfold scrape_single_page.
  replace (Z.to_nat retries) with 0%nat by lia. reflexivity.
Qed.

(** The shared index and the file after one worker. *)
Lemma worker_effect st p :
  seen_urls (W st p) = snd (admission (seen_urls st) (products_at p))
  /\ output_file (W st p)
     = append_items (output_file st) (fst (admission (seen_urls st) (products_at p))).
Proof.
  unfold W, products_at, page_products, worker. rewrite page_url_eq.
  destruct (scrape_single_page env cls (page_url L start_url p) (MAX_RETRIES cls))
    as [[products|] events]; cbn [fst].
  - change (default [] (Some products)) with products.
    destruct (admission (seen_urls st) products) as [new_items seen']. split; reflexivity.
  - change (default [] (@None (list item))) with (@nil item).
    split; reflexivity.
Qed.


(** The state a call of [scrape_pages] ends in. *)
Lemma scrape_pages_state pages concurrency file schedule :
  snd (scrape_pages L env cls start_url pages concurrency file schedule)
  = fold_left W (if concurrency <=? 0 then [] else schedule)
      {| seen_urls := load_seen_urls file; output_file := file;
         results := ∅; raised := false; log := [] |}.
Proof.
  unfold scrape_pages.
  destruct (concurrency <? 0) eqn:E1.
  - replace (concurrency <=? 0) with true by lia. reflexivity.
  - destruct (concurrency =? 0) eqn:E2.
    + replace (concurrency <=? 0) with true by lia. cbn [fold_left raised].
      destruct (gather _ pages); reflexivity.
    + replace (concurrency <=? 0) with false by lia. fold W.
      destruct (raised (fold_left W schedule _)); [reflexivity|].
      destruct (gather _ pages); reflexivity.
Qed.





Lemma elem_of_urls_of_pages x schedule :
  x ∈ urls_of_pages L env cls start_url schedule
  <-> exists p, In p schedule /\ x ∈ truthy_urls (products_at p).
Proof.
  unfold urls_of_pages. rewrite elem_of_list_to_set, list_elem_of_In, in_concat.
  split.
  - intros (l & [p [<- Hp]]%in_map_iff & Hx). exists p. split; [exact Hp|].
    apply list_elem_of_In, Hx.
  - intros (p & Hp & Hx). exists (truthy_urls (products_at p)).
    split; [apply in_map_iff; exists p; auto|apply list_elem_of_In, Hx].
Qed.

Lemma fold_index schedule st :
  seen_urls (fold_left W schedule st)
  = seen_urls st ∪ urls_of_pages L env cls start_url schedule.
Proof.
  revert st. induction schedule as [|p s IH]; intros st.
  - apply set_eq. intros x. rewrite elem_of_union, elem_of_urls_of_pages.
    split; [auto|]. intros [H|(q & [] & _)]. exact H.
  - cbn [fold_left]. rewrite IH. destruct (worker_effect st p) as [-> _].
    rewrite admission_index. apply set_eq. intros x.
    rewrite !elem_of_union, !elem_of_urls_of_pages, elem_of_list_to_set. split.
    + intros [[H|H]|(q & Hq & Hx)]; [left; exact H| |].
      * right. exists p. split; [left; reflexivity|exact H].
      * right. exists q. split; [right; exact Hq|exact Hx].
    + intros [H|(q & [<-|Hq] & Hx)]; [left; left; exact H|left; right; exact Hx|].
      right. exists q. split; [exact Hq|exact Hx].
Qed.

(** X19: the urls a run ends with do not depend on the order in which the
    workers ran: with a semaphore that lets workers in, the final index is
    the loaded index together with every non-empty url found on the pages
    that ran, so two schedules of the same pages end with the same index. *)
Theorem final_index_ignores_schedule (pages concurrency : Z)
    (file : option (list sink_line)) (schedule schedule' : list Z) :
  1 <= concurrency ->
  schedule ≡ₚ schedule' ->
  seen_urls (snd (scrape_pages L env cls start_url pages concurrency file schedule))
  = load_seen_urls file ∪ urls_of_pages L env cls start_url schedule
  /\ seen_urls (snd (scrape_pages L env cls start_url pages concurrency file schedule))
     = seen_urls (snd (scrape_pages L env cls start_url pages concurrency file
                         schedule')).
Proof.
  intros Hc Hperm. rewrite !scrape_pages_state.
  replace (concurrency <=? 0) with false by lia.
  rewrite !fold_index. cbn [seen_urls]. split; [reflexivity|].
  f_equal. apply set_eq. intros x. rewrite !elem_of_urls_of_pages.
  split; intros (p & Hp & Hx); exists p; split; try exact Hx;
    apply list_elem_of_In; [rewrite <- Hperm|rewrite Hperm];
    apply list_elem_of_In, Hp.
Qed.



(** X21: with [MAX_RETRIES <= 0] a run that lets a worker in raises: the
    page function returns [None] and the worker cannot iterate over it.
    Nothing is requested and the file is not touched. *)
Theorem run_without_retries_raises (pages concurrency : Z)
    (file : option (list sink_line)) (schedule : list Z) :
  MAX_RETRIES cls <= 0 -> 1 <= concurrency -> schedule <> [] ->
  fst (scrape_pages L env cls start_url pages concurrency file schedule) = Raised
  /\ output_file (snd (scrape_pages L env cls start_url pages concurrency file schedule))
     = file
  /\ log (snd (scrape_pages L env cls start_url pages concurrency file schedule)) = [].
Proof.
  intros Hm Hc Hs.
  assert (Hw : forall st p,
             W st p = {| seen_urls := seen_urls st; output_file := output_file st;
                         results := results st; raised := true; log := log st ++ [] |}).
  { intros st p. unfold W, worker. rewrite page_url_eq.
    rewrite (scrape_without_attempts (page_url L start_url p) (MAX_RETRIES cls) Hm).
    reflexivity. }
  assert (Hfold : forall s st,
             raised (fold_left W s st) = (raised st || negb (Nat.eqb (length s) 0))
             /\ output_file (fold_left W s st) = output_file st
             /\ log (fold_left W s st) = log st).
  { induction s as [|p s IH]; intros st.
    - cbn. rewrite orb_false_r. auto.
    - cbn [fold_left]. destruct (IH (W st p)) as (-> & -> & ->).
      rewrite Hw. cbn [raised output_file log length]. rewrite app_nil_r.
      rewrite orb_true_r. auto. }
  unfold scrape_pages.
  replace (concurrency <? 0) with false by lia.
  replace (concurrency =? 0) with false by lia. fold W.
  destruct (Hfold schedule {| seen_urls := load_seen_urls file; output_file := file;
                              results := ∅; raised := false; log := [] |})
    as (Hr & Ho & Hl).
  rewrite Hr. cbn [raised]. destruct schedule as [|p s]; [congruence|].
  cbn [length Nat.eqb negb orb fst snd]. rewrite Ho, Hl. auto.
Qed.

(** X22: without a slot no work is done.  With [concurrency <= 0] nothing
    is requested and the file is not touched; a negative size raises, and
    size 0 blocks as soon as there is a page to scrape and returns 0 when
    there is none. *)
Theorem run_without_slot (pages concurrency : Z)
    (file : option (list sink_line)) (schedule : list Z) :
  concurrency <= 0 ->
  log (snd (scrape_pages L env cls start_url pages concurrency file schedule)) = []
  /\ output_file (snd (scrape_pages L env cls start_url pages concurrency file schedule))
     = file
  /\ fst (scrape_pages L env cls start_url pages concurrency file schedule)
     = (if concurrency <? 0 then Raised
        else if 1 <=? pages then Blocked else Returned 0).
Proof.
  intros Hc. rewrite scrape_pages_state.
  replace (concurrency <=? 0) with true by lia. cbn [fold_left log output_file].
  split; [reflexivity|]. split; [reflexivity|].
  unfold scrape_pages. destruct (concurrency <? 0) eqn:E1; [reflexivity|].
  replace (concurrency =? 0) with true by lia. cbn [fold_left raised results fst].
  unfold gather. destruct (1 <=? pages) eqn:Ep.
  - rewrite seqZ_cons by lia. cbn. rewrite lookup_empty. reflexivity.
  - replace (seqZ 1 pages) with (@nil Z); [reflexivity|].
    symmetry. apply length_zero_iff_nil. rewrite length_seqZ. lia.
Qed.

End MoreRun.

Section MoreRunExamples.

#[local] Open Scope list_scope.

Lemma final_index_ignores_schedule_witness :
  1 <= 3 /\ [2; 1] ≡ₚ [1; 2]
  /\ seen_urls (snd (scrape_pages plain env_page_1_only defaults start_1 2 3 None [2; 1]))
     = seen_urls (snd (scrape_pages plain env_page_1_only defaults start_1 2 3 None [1; 2])).
Proof.
  assert (H1 : 1 <= 3) by lia.
  assert (H2 : [2; 1] ≡ₚ [1; 2]) by apply perm_swap.
  split; [exact H1|]. split; [exact H2|].
  exact (proj2 (final_index_ignores_schedule plain env_page_1_only defaults start_1
                  2 3 None [2; 1] [1; 2] H1 H2)).
Defined.


Lemma run_without_retries_raises_witness :
  MAX_RETRIES no_retries <= 0 /\ 1 <= 3 /\ [1] <> @nil Z
  /\ fst (scrape_pages plain env_page_1_only no_retries start_1 1 3 None [1]) = Raised.
Proof.
  assert (H1 : MAX_RETRIES no_retries <= 0) by (simpl; lia).
  assert (H2 : 1 <= 3) by lia.
  assert (H3 : [1] <> @nil Z) by discriminate.
  split; [exact H1|]. split; [exact H2|]. split; [exact H3|].
  exact (proj1 (run_without_retries_raises plain env_page_1_only no_retries start_1
                  1 3 None [1] H1 H2 H3)).
Defined.

Lemma run_without_slot_witness :
  0 <= 0
  /\ log (snd (scrape_pages plain env_page_1_only defaults start_1 2 0 None [2; 1])) = [].
Proof.
  assert (H : 0 <= 0) by lia.
  split; [exact H|].
  exact (proj1 (run_without_slot plain env_page_1_only defaults start_1
                  2 0 None [2; 1] H)).
Defined.

End MoreRunExamples.

(** ** scraper/config.py, continued *)

Section MoreConfig.

#[local] Open Scope Q_scope.

Lemma compare_half d :
  match d ?= 1 # 2 with
  | Eq => d == 1 # 2
  | Lt => d < 1 # 2
  | Gt => 1 # 2 < d
  end.
Proof.
  destruct (d ?= 1 # 2) eqn:C; [apply Qeq_alt|apply Qlt_alt|apply Qgt_alt]; exact C.
Qed.

Lemma round_half_even_monotone x y :
  x <= y -> (round_half_even x <= round_half_even y)%Z.
Proof.
  intros Hxy.
  assert (Hf : (Qfloor x <= Qfloor y)%Z) by (apply Qfloor_resp_le, Hxy).
  destruct (Z.eq_dec (Qfloor x) (Qfloor y)) as [E|E].
  - unfold round_half_even. rewrite <- E.
    pose proof (compare_half (x - inject_Z (Qfloor x))) as Cx.
    pose proof (compare_half (y - inject_Z (Qfloor x))) as Cy.
    destruct (x - inject_Z (Qfloor x) ?= 1 # 2);
      destruct (y - inject_Z (Qfloor x) ?= 1 # 2);
      try (destruct (Z.even (Qfloor x))); try lia; exfalso; lra.
  - destruct (round_half_even_cases x) as [[-> _]|[-> _]];
      destruct (round_half_even_cases y) as [[-> _]|[-> _]]; lia.
Qed.

Lemma round2_monotone x y : x <= y -> round2 x <= round2 y.
Proof.
  intros Hxy. unfold round2.
  assert (H : (round_half_even (x * 100) <= round_half_even (y * 100))%Z).
  { apply round_half_even_monotone. lra. }
  rewrite Zle_Qle in H. unfold Qdiv. change (/ 100) with (1 # 100). lra.
Qed.

Lemma round2_zero : round2 0 == 0.
Proof. reflexivity. Qed.

(** X23: with a base, a factor, a draw and a cap that are not negative,
    the retry delay is never negative. *)
Theorem retry_delay_nonnegative (cls : Config) (attempt : Z) (jitter : Q) :
  0 <= RETRY_BASE_DELAY cls -> 0 <= RETRY_BACKOFF_FACTOR cls ->
  0 <= RETRY_MAX_DELAY cls -> 0 <= jitter ->
  0 <= calculate_retry_delay cls attempt jitter.
Proof.
  intros Hb Hf Hm Hj. unfold calculate_retry_delay.
  rewrite <- round2_zero. apply round2_monotone.
  apply Q.min_glb; [|exact Hm].
  pose proof (Qpower_0_le (RETRY_BACKOFF_FACTOR cls) (attempt - 1) Hf) as Hp.
  pose proof (Qmult_le_0_compat _ _ Hb Hp). lra.
Qed.


Lemma retry_delay_nonnegative_witness :
  0 <= RETRY_BASE_DELAY defaults /\ 0 <= RETRY_BACKOFF_FACTOR defaults
  /\ 0 <= RETRY_MAX_DELAY defaults /\ 0 <= 1 # 2
  /\ 0 <= calculate_retry_delay defaults 2 (1 # 2).
Proof.
  assert (H1 : 0 <= RETRY_BASE_DELAY defaults) by (vm_compute; discriminate).
  assert (H2 : 0 <= RETRY_BACKOFF_FACTOR defaults) by (vm_compute; discriminate).
  assert (H3 : 0 <= RETRY_MAX_DELAY defaults) by (vm_compute; discriminate).
  assert (H4 : 0 <= 1 # 2) by (vm_compute; discriminate).
  split; [exact H1|]. split; [exact H2|]. split; [exact H3|]. split; [exact H4|].
  exact (retry_delay_nonnegative defaults 2 (1 # 2) H1 H2 H3 H4).
Defined.


End MoreConfig.

(** ** When no url is listed twice *)

Section DistinctUrls.

#[local] Open Scope list_scope.




Variables (L : UrlLib) (env : Env) (cls : Config) (start_url : string).



End DistinctUrls.

Section DistinctUrlExamples.

#[local] Open Scope list_scope.



End DistinctUrlExamples.
